(** * CS6650-HW8-Dynamo: the concurrent load-test driver and the cart handler

    A shallow embedding of [testing/test.go] (the load-generation harness:
    HTTP call sites, the result list, [runConcurrent], [calculateStatistics],
    [main]) and of the [createShoppingCart] handler of the service, with the
    properties of the design document stated and settled against them.

    Conventions.
    - Go [int] is a 64-bit two's-complement integer: a [Z] with the
      wrap-around written out ([wrap64], [int_add]).
    - Go [float64] is Rocq's primitive binary64 [float].
    - [map[string]OpStats] is a [gmap string OpStats].
    - What the program reads from the outside world (HTTP replies, clock
      readings, random numbers, the goroutine scheduler's choices, the
      DynamoDB replies) is an explicit argument of the function reading it. *)

From Stdlib Require Import ZArith Lia PrimFloat Uint63.
From stdpp Require Import gmap strings list fin_maps pretty.

Local Open Scope Z_scope.

(** ** Machine integers and floats *)

Module GoInt.

Definition min_int : Z := - 2 ^ 63.
Definition max_int : Z := 2 ^ 63 - 1.

(** Two's-complement wrap-around of a 64-bit signed integer. *)
Definition wrap64 (z : Z) : Z := (z + 2 ^ 63) mod 2 ^ 64 - 2 ^ 63.

Definition int_add (a b : Z) : Z := wrap64 (a + b).

(** [float64(n)] for a Go [int]: round to nearest even. *)
Definition float64_of_int (z : Z) : float :=
  if z =? min_int then PrimFloat.opp 9223372036854775808%float
  else if z <? 0 then PrimFloat.opp (PrimFloat.of_uint63 (Uint63.of_Z (- z)))
  else PrimFloat.of_uint63 (Uint63.of_Z z).

(** [time.Duration.Seconds]: [d] is a count of nanoseconds;
    [sec := d / Second; nsec := d % Second;
     return float64(sec) + float64(nsec)/1e9]. Go's [/] and [%] truncate
    toward zero. *)
Definition duration_seconds (d : Z) : float :=
  let sec := Z.quot d 1000000000 in
  let nsec := Z.rem d 1000000000 in
  PrimFloat.add (float64_of_int sec)
                (PrimFloat.div (float64_of_int nsec) 1000000000%float).

End GoInt.
Export GoInt.

(** ** Data model of the harness ([testing/test.go], lines 15-58) *)

Definition NumCreateCart : Z := 50.
Definition NumAddItems : Z := 50.
Definition NumGetCart : Z := 50.
Definition TotalOps : Z := NumCreateCart + NumAddItems + NumGetCart.
Definition NumWorkers : nat := 10.

(** [TestResult]: a single operation result. *)
Record TestResult := mkTestResult {
  Operation : string;
  ResponseTime : float;
  Success : bool;
  StatusCode : Z;
  Timestamp : string;
  CustomerID : Z
}.

(** [OpStats]: statistics for an operation type. *)
Record OpStats := mkOpStats {
  Count : Z;
  Successful : Z;
  Failed : Z;
  AvgResponseTime : float;
  MinResponseTime : float;
  MaxResponseTime : float;
  TotalResponseTime : float
}.

(** [TestOutput]: the complete test output. *)
Record TestOutput := mkTestOutput {
  Results : list TestResult;
  Statistics : gmap string OpStats
}.

(** ** The statistics engine ([calculateStatistics], lines 284-321) *)

Module Stats.

Definition opTypes : list string := ["create_cart"; "add_items"; "get_cart"].

(** The zero value of [OpStats] with [MinResponseTime: 999999]. *)
Definition stat0 : OpStats :=
  mkOpStats 0 0 0 0%float 999999%float 0%float 0%float.

(** Body of the inner loop (lines 294-310) for one [result]. *)
Definition scan (opType : string) (stat : OpStats) (result : TestResult) : OpStats :=
  if bool_decide (Operation result = opType) then
    let count := int_add (Count stat) 1 in
    let total := PrimFloat.add (TotalResponseTime stat) (ResponseTime result) in
    let successful :=
      if Success result then int_add (Successful stat) 1 else Successful stat in
    let failed :=
      if Success result then Failed stat else int_add (Failed stat) 1 in
    let min :=
      if PrimFloat.ltb (ResponseTime result) (MinResponseTime stat)
      then ResponseTime result else MinResponseTime stat in
    let max :=
      if PrimFloat.ltb (MaxResponseTime stat) (ResponseTime result)
      then ResponseTime result else MaxResponseTime stat in
    mkOpStats count successful failed (AvgResponseTime stat) min max total
  else stat.

(** Lines 313-315: the average is filled in only for a positive count. *)
Definition finish (stat : OpStats) : OpStats :=
  if 0 <? Count stat then
    mkOpStats (Count stat) (Successful stat) (Failed stat)
              (PrimFloat.div (TotalResponseTime stat) (float64_of_int (Count stat)))
              (MinResponseTime stat) (MaxResponseTime stat) (TotalResponseTime stat)
  else stat.

(** One iteration of the outer loop (lines 288-318) without the store. *)
Definition statFor (results : list TestResult) (opType : string) : OpStats :=
  finish (fold_left (scan opType) results stat0).

(** [calculateStatistics] reads the global [results]; it is passed in. *)
Definition calculateStatistics (results : list TestResult) : gmap string OpStats :=
  fold_left (fun stats opType => <[opType := statFor results opType]> stats)
            opTypes ∅.

(** The call seen as a command on the global [results]: it only reads
    the list, so the list after the call is the list before it. *)
Definition calculateStatistics_call (results : list TestResult)
  : gmap string OpStats * list TestResult :=
  (calculateStatistics results, results).

(** Records of one kind in a result list. *)
Definition matching (opType : string) (results : list TestResult) : nat :=
  length (filter (fun r => Operation r = opType) results).

(** The sum of the counts of all entries of a statistics mapping. *)
Definition total_count (stats : gmap string OpStats) : Z :=
  map_fold (fun _ stat acc => Count stat + acc) 0 stats.

End Stats.

(** ** The HTTP call sites ([createCart], [addItemToCart], [getCart]) *)

Module Http.

(** The pair [(resp, err)] that [httpClient.Get] and [httpClient.Post]
    hand back.  [net/http] returns a response and a nil error, or a nil
    response and an error (connection refused, timeout, DNS failure, a URL
    that does not parse), or, only when the redirect policy stops the
    request, both a response and an error. *)
Inductive reply :=
| Received (status : Z)
| TransportError (msg : string)
| RedirectStopped (status : Z) (msg : string).

(** [resp] with its [StatusCode], [None] for a nil response. *)
Definition resp (r : reply) : option Z :=
  match r with
  | Received status => Some status
  | TransportError _ => None
  | RedirectStopped status _ => Some status
  end.

(** [err], [None] for a nil error. *)
Definition err (r : reply) : option string :=
  match r with
  | Received _ => None
  | TransportError msg => Some msg
  | RedirectStopped _ msg => Some msg
  end.

(** What one call site reads from the outside world: the reply to its
    request, the reading of [time.Since(startTime)] taken when the request
    has returned (nanoseconds), and the wall clock formatted for the
    record. *)
Record call := mkCall {
  call_reply : reply;
  call_since : Z;
  call_now : string
}.

(** [time.Since(startTime).Seconds() * 1000]. *)
Definition millis (since : Z) : float :=
  PrimFloat.mul (duration_seconds since) 1000%float.

(** [err == nil && accept(resp.StatusCode)]: [&&] does not look at the
    response when the error is not nil. *)
Definition success_when (accept : Z -> bool) (r : reply) : bool :=
  match err r with
  | None => match resp r with Some status => accept status | None => false end
  | Some _ => false
  end.

(** [if resp != nil { result.StatusCode = resp.StatusCode }]; the field
    keeps its zero value otherwise. *)
Definition status_of (r : reply) : Z :=
  match resp r with Some status => status | None => 0 end.

Definition createCart (c : call) (customerID : Z) : TestResult :=
  mkTestResult "create_cart" (millis (call_since c))
    (success_when (fun s => (s =? 200) || (s =? 201)) (call_reply c))
    (status_of (call_reply c)) (call_now c) customerID.

Definition addItemToCart (c : call) (customerID : Z) : TestResult :=
  mkTestResult "add_items" (millis (call_since c))
    (success_when (fun s => (s =? 200) || (s =? 201)) (call_reply c))
    (status_of (call_reply c)) (call_now c) customerID.

Definition getCart (c : call) (customerID : Z) : TestResult :=
  mkTestResult "get_cart" (millis (call_since c))
    (success_when (fun s => s =? 200) (call_reply c))
    (status_of (call_reply c)) (call_now c) customerID.

(** [testConnectivity]: the health probe. *)
Definition testConnectivity (health : reply) : bool :=
  match err health with
  | Some _ => false
  | None => match resp health with Some status => status =? 200 | None => false end
  end.

(** [addResult]: append under the mutex. *)
Definition addResult (results : list TestResult) (result : TestResult) : list TestResult :=
  results ++ [result].

End Http.

(** ** The phase runner ([runConcurrent], lines 171-188)

    The goroutines of one call and the main goroutine are interleaved by
    the scheduler; a schedule is the list of who moves next. *)

Module Runner.

(** Where goroutine [index] stands in
    [defer wg.Done(); semaphore <- struct{}{}; taskFunc(index); <-semaphore]. *)
Inductive pc :=
| Acquire   (* about to send on the semaphore channel *)
| Task      (* holds a slot, inside [taskFunc(index)] *)
| Release   (* [taskFunc] has returned, about to receive from the channel *)
| Finish    (* about to run the deferred [wg.Done()] *)
| Done.

(** Where the caller stands: in the [for] loop, in [wg.Wait()], or back
    from the call. *)
Inductive mainpc := Loop | Wait | Returned.

(** What [taskFunc(index)] does to the shared state: it hands records to
    [addResult], one after the other, and returns, or it panics. *)
Inductive effect :=
| Appends (rs : list TestResult)
| Panics (msg : string).

Record state := mkState {
  mpc : mainpc;
  next : nat;                  (* the loop variable [i] *)
  wg : Z;                      (* the WaitGroup counter *)
  sem : nat;                   (* elements buffered in [semaphore] *)
  gs : list pc;                (* the goroutines started so far *)
  results : list TestResult    (* the global result list *)
}.

(** A panic that no [recover] stops ends the process. *)
Inductive config :=
| Running (s : state)
| Crashed (results : list TestResult) (msg : string).

Inductive actor := Main | Go (index : nat).

Definition init (results : list TestResult) : state :=
  mkState Loop 0 0 0 [] results.

Section Step.
Variable count : nat.
Variable taskFunc : nat -> effect.

Definition set_pc (s : state) (k : nat) (p : pc) : list pc := <[k := p]> (gs s).

Definition step_main (s : state) : option config :=
  match mpc s with
  | Loop =>
      if (next s <? count)%nat
      then (* [wg.Add(1); go func(index int) {...}(i); i++] *)
        Some (Running (mkState Loop (S (next s)) (wg s + 1) (sem s)
                               (gs s ++ [Acquire]) (results s)))
      else Some (Running (mkState Wait (next s) (wg s) (sem s) (gs s) (results s)))
  | Wait =>
      (* [wg.Wait()] blocks until the counter is zero *)
      if wg s =? 0
      then Some (Running (mkState Returned (next s) (wg s) (sem s) (gs s) (results s)))
      else None
  | Returned => None
  end.

Definition step_go (k : nat) (s : state) : option config :=
  match gs s !! k with
  | None => None
  | Some Acquire =>
      (* a send on a buffered channel blocks while the buffer is full *)
      if (sem s <? NumWorkers)%nat
      then Some (Running (mkState (mpc s) (next s) (wg s) (S (sem s))
                                 (set_pc s k Task) (results s)))
      else None
  | Some Task =>
      match taskFunc k with
      | Appends rs =>
          Some (Running (mkState (mpc s) (next s) (wg s) (sem s)
                                 (set_pc s k Release)
                                 (fold_left Http.addResult rs (results s))))
      | Panics msg => Some (Crashed (results s) msg)
      end
  | Some Release =>
      (* a receive blocks while the buffer is empty *)
      match sem s with
      | O => None
      | S n => Some (Running (mkState (mpc s) (next s) (wg s) n
                                      (set_pc s k Finish) (results s)))
      end
  | Some Finish =>
      (* [wg.Done()] panics on a negative counter *)
      if wg s - 1 <? 0
      then Some (Crashed (results s) "sync: negative WaitGroup counter")
      else Some (Running (mkState (mpc s) (next s) (wg s - 1) (sem s)
                                  (set_pc s k Done) (results s)))
  | Some Done => None
  end.

(** One move of [a]; [None] when [a] cannot move (blocked or finished). *)
Definition step (a : actor) (s : state) : option config :=
  match a with
  | Main => step_main s
  | Go k => step_go k s
  end.

(** The moves of a schedule, in order; nothing moves after a crash. *)
Fixpoint run (sched : list actor) (c : config) : option config :=
  match sched with
  | [] => Some c
  | a :: sched' =>
      match c with
      | Running s =>
          match step a s with
          | Some c' => run sched' c'
          | None => None
          end
      | Crashed _ _ => None
      end
  end.

(** The value the call returns: [make([]int, count)], never written. *)
Definition runConcurrent_value : list Z := replicate count 0.

(** The schedule that runs the goroutines one after the other. *)
Definition sequential : list actor :=
  flat_map (fun k => [Main; Go k; Go k; Go k; Go k]) (seq 0 count) ++ [Main; Main].

End Step.

(** The state between two goroutines of the sequential schedule. *)
Definition between (n : nat) (rs : list TestResult) : state :=
  mkState Loop n 0 0 (replicate n Done) rs.

(** Counting goroutines by where they stand. *)
Definition tally (w : pc -> nat) (l : list pc) : nat := sum_list_with w l.

Definition in_task (p : pc) : nat := match p with Task => 1 | _ => 0 end.
Definition holds_slot (p : pc) : nat :=
  match p with Task | Release => 1 | _ => 0 end.
Definition live (p : pc) : nat := match p with Done => 0 | _ => 1 end.

(** The records task [k] appends. *)
Definition appended (taskFunc : nat -> effect) (k : nat) : list TestResult :=
  match taskFunc k with
  | Appends rs => rs
  | Panics _ => []
  end.

(** Has the goroutine come back from [taskFunc]? *)
Definition past (p : pc) : bool :=
  match p with
  | Release | Finish | Done => true
  | Acquire | Task => false
  end.

(** The records of the goroutines that are back from [taskFunc], by
    goroutine index. *)
Definition emitted (out : nat -> list TestResult) (l : list pc) : list TestResult :=
  mjoin (imap (fun k p => if past p then out k else []) l).

(** A task function no call of which panics below [count]. *)
Definition faultless (count : nat) (taskFunc : nat -> effect) : Prop :=
  forall k, (k < count)%nat -> exists rs, taskFunc k = Appends rs.

(** Three tasks, the second of which panics. *)
Definition faulty (k : nat) : effect :=
  if (k =? 1)%nat then Panics "runtime error: invalid memory address"
  else Appends [mkTestResult "get_cart" 1%float true 200 "" (Z.of_nat k)].

(** Goroutines inside [taskFunc]. *)
Definition executing (s : state) : nat := tally in_task (gs s).

(** Goroutines that have sent on the semaphore and not yet received. *)
Definition admitted (s : state) : nat := tally holds_slot (gs s).

(** Goroutines started and not yet finished. *)
Definition unfinished (s : state) : nat := tally live (gs s).

(** The moves a goroutine, the caller, and the whole call have left. *)
Definition rank (p : pc) : nat :=
  match p with Acquire => 4 | Task => 3 | Release => 2 | Finish => 1 | Done => 0 end.

Definition main_rank (m : mainpc) : nat :=
  match m with Loop => 2 | Wait => 1 | Returned => 0 end.

Definition moves_left (count : nat) (s : state) : nat :=
  (5 * (count - next s) + main_rank (mpc s) + tally rank (gs s))%nat.

(** The call is over: it has returned, or the process has died. *)
Definition over (c : config) : Prop :=
  match c with
  | Running s => mpc s = Returned
  | Crashed _ _ => True
  end.

(** What every state of a call that started with [results0] satisfies:
    the goroutines started are those of the loop so far, the WaitGroup
    counts the unfinished ones, the channel holds one element per admitted
    goroutine and never more than its capacity, and the result list is
    [results0] followed by the records of the tasks that are back. *)
Record inv (count : nat) (taskFunc : nat -> effect) (results0 : list TestResult)
       (s : state) : Prop := mkInv {
  inv_started : length (gs s) = next s;
  inv_next : (next s <= count)%nat;
  inv_loop : mpc s = Loop \/ next s = count;
  inv_wg : wg s = Z.of_nat (unfinished s);
  inv_sem : sem s = admitted s;
  inv_cap : (sem s <= NumWorkers)%nat;
  inv_results : exists fresh, results s = results0 ++ fresh
                              /\ fresh ≡ₚ emitted (appended taskFunc) (gs s);
  inv_returned : mpc s = Returned -> wg s = 0
}.

End Runner.

(** ** The orchestrator ([main], lines 60-146) *)

Module Driver.
Import Http Runner Stats.

(** The lines [main] prints, by what they say; the text is left out. *)
Inductive line :=
| Usage
| Header
| NotAccessible
| Healthy
| UsingIDs (first last : Z)
| PhaseStart (n : nat)
| PhaseComplete (n : nat)
| SaveError
| SavedTo
| Summary (stats : gmap string OpStats)
| OverTime
| WithinTime
| AllSuccessful
| SuccessRate (rate : float)
| Rule.

(** Everything one run reads from the outside world. *)
Record world := mkWorld {
  health : reply;                (* the reply to [GET /health] *)
  rand_base : Z;                 (* [rand.Intn(100000)] *)
  create_call : nat -> call;     (* what task [i] of phase 1 meets *)
  add_call : nat -> call;        (* what task [i] of phase 2 meets *)
  get_call : nat -> call;        (* what task [i] of phase 3 meets *)
  sched1 : list actor;           (* the scheduler during phase 1 *)
  sched2 : list actor;
  sched3 : list actor;
  duration : Z;                  (* [time.Since(startTime)], nanoseconds *)
  file_created : bool            (* [os.Create] succeeds *)
}.

Inductive ending :=
| Exited (code : Z)
| Panicked (msg : string).

Record outcome := mkOutcome {
  how : ending;
  stdout : list line;
  collected : list TestResult;       (* the global [results] at the end *)
  file : option TestOutput           (* [dynamodb_test_results.json] *)
}.

Definition TimeLimit : Z := 5 * 60 * 1000000000.

(** [customerIDs[i] = baseCustomerID + i] for [i < NumCreateCart]. *)
Definition customerIDs (baseCustomerID : Z) : list Z :=
  (fun i => int_add baseCustomerID (Z.of_nat i)) <$> seq 0 (Z.to_nat NumCreateCart).

(** The closures handed to [runConcurrent]; indexing a slice out of
    range and a remainder by zero are run-time panics. *)
Definition task1 (w : world) (ids : list Z) (i : nat) : effect :=
  match ids !! i with
  | Some customerID => Appends [createCart (create_call w i) customerID]
  | None => Panics "index out of range"
  end.

Definition pick (ids : list Z) (i : nat) : option Z :=
  match length ids with
  | O => None
  | S _ => ids !! (i mod length ids)%nat
  end.

Definition task2 (w : world) (ids : list Z) (i : nat) : effect :=
  match pick ids i with
  | Some customerID => Appends [addItemToCart (add_call w i) customerID]
  | None => Panics "integer divide by zero"
  end.

Definition task3 (w : world) (ids : list Z) (i : nat) : effect :=
  match pick ids i with
  | Some customerID => Appends [getCart (get_call w i) customerID]
  | None => Panics "integer divide by zero"
  end.

Definition countSuccessful (results : list TestResult) : Z :=
  fold_left (fun count result => if Success result then int_add count 1 else count)
            results 0.

(** What one [runConcurrent] call comes to under a schedule: it returns
    with a result list, the process dies, or the schedule is not a run of
    the call to its end. *)
Inductive phase_end :=
| PhaseReturned (results : list TestResult)
| PhaseCrashed (results : list TestResult) (msg : string)
| NotARun.

Definition runConcurrent (count : nat) (taskFunc : nat -> effect)
           (sched : list actor) (results : list TestResult) : phase_end :=
  match run count taskFunc sched (Running (init results)) with
  | Some (Running s) =>
      match mpc s with
      | Returned => PhaseReturned (Runner.results s)
      | _ => NotARun
      end
  | Some (Crashed rs msg) => PhaseCrashed rs msg
  | None => NotARun
  end.

(** Lines 113-145, after the three phases. *)
Definition report (w : world) (out : list line) (results : list TestResult) : outcome :=
  let stats := calculateStatistics results in
  let output := mkTestOutput results stats in
  let saved := if file_created w then [SavedTo] else [SaveError] in
  let timing := if TimeLimit <? duration w then [OverTime] else [WithinTime] in
  let successRate :=
    PrimFloat.mul
      (PrimFloat.div (float64_of_int (countSuccessful results))
                     (float64_of_int (Z.of_nat (length results))))
      100%float in
  let rate :=
    if PrimFloat.eqb successRate 100%float then [AllSuccessful]
    else [SuccessRate successRate] in
  mkOutcome (Exited 0)
            (out ++ saved ++ [Summary stats] ++ timing ++ rate ++ [Rule])
            results
            (if file_created w then Some output else None).

(** [main]; [args] is [os.Args].  The result is [None] when one of the
    schedules of [w] is not a run of its phase. *)
Definition main (args : list string) (w : world) : option outcome :=
  if (length args <? 2)%nat then Some (mkOutcome (Exited 1) [Usage; Usage] [] None)
  else
    let out := [Header] in
    if negb (testConnectivity (health w))
    then Some (mkOutcome (Exited 1) (out ++ [NotAccessible]) [] None)
    else
      let out := out ++ [Healthy] in
      let baseCustomerID := int_add (rand_base w) 10000 in
      let out := out ++ [UsingIDs baseCustomerID
                           (int_add (int_add baseCustomerID NumCreateCart) (-1))] in
      let out := out ++ [PhaseStart 1] in
      let ids := customerIDs baseCustomerID in
      match runConcurrent (Z.to_nat NumCreateCart) (task1 w ids) (sched1 w) [] with
      | NotARun => None
      | PhaseCrashed rs msg => Some (mkOutcome (Panicked msg) out rs None)
      | PhaseReturned rs1 =>
          let out := out ++ [PhaseComplete 1; PhaseStart 2] in
          match runConcurrent (Z.to_nat NumAddItems) (task2 w ids) (sched2 w) rs1 with
          | NotARun => None
          | PhaseCrashed rs msg => Some (mkOutcome (Panicked msg) out rs None)
          | PhaseReturned rs2 =>
              let out := out ++ [PhaseComplete 2; PhaseStart 3] in
              match runConcurrent (Z.to_nat NumGetCart) (task3 w ids) (sched3 w) rs2 with
              | NotARun => None
              | PhaseCrashed rs msg => Some (mkOutcome (Panicked msg) out rs None)
              | PhaseReturned rs3 => Some (report w (out ++ [PhaseComplete 3]) rs3)
              end
          end
      end.

(** The phase markers among the printed lines. *)
Definition is_phase_line (l : line) : bool :=
  match l with PhaseStart _ | PhaseComplete _ => true | _ => false end.

Definition phase_lines (out : list line) : list line :=
  List.filter is_phase_line out.

(** The lines printed up to the end of phase 3. *)
Definition lines_to_phase3 (w : world) : list line :=
  [Header; Healthy;
   UsingIDs (int_add (rand_base w) 10000)
            (int_add (int_add (int_add (rand_base w) 10000) NumCreateCart) (-1));
   PhaseStart 1; PhaseComplete 1; PhaseStart 2; PhaseComplete 2;
   PhaseStart 3; PhaseComplete 3].

(** The record each task of a run leaves, by phase and task index. *)
Definition target (w : world) (i : nat) : Z :=
  int_add (int_add (rand_base w) 10000) (Z.of_nat (i mod 50)).

Definition record1 (w : world) (i : nat) : TestResult :=
  createCart (create_call w i) (target w i).
Definition record2 (w : world) (i : nat) : TestResult :=
  addItemToCart (add_call w i) (target w i).
Definition record3 (w : world) (i : nat) : TestResult :=
  getCart (get_call w i) (target w i).

(** The call task [i] of phase [p] makes and the record it leaves. *)
Definition call_of (w : world) (p i : nat) : call :=
  match p with
  | 1%nat => create_call w i
  | 2%nat => add_call w i
  | _ => get_call w i
  end.

Definition record_of (w : world) (p i : nat) : TestResult :=
  match p with
  | 1%nat => record1 w i
  | 2%nat => record2 w i
  | _ => record3 w i
  end.

(** The records of all tasks of a run, by phase and task index. *)
Definition all_records (w : world) : list TestResult :=
  (record1 w <$> seq 0 50) ++ (record2 w <$> seq 0 50) ++ (record3 w <$> seq 0 50).

(** A world whose scheduler runs the goroutines one after the other. *)
Definition calm (health : reply) (reply_of : nat -> reply) : world :=
  mkWorld health 4242
          (fun i => mkCall (reply_of i) 2500000 "2025-01-01T00:00:00Z")
          (fun i => mkCall (reply_of i) 2500000 "2025-01-01T00:00:01Z")
          (fun i => mkCall (reply_of i) 2500000 "2025-01-01T00:00:02Z")
          (sequential 50) (sequential 50) (sequential 50)
          1000000000 true.

End Driver.

(** ** The service's [createShoppingCart] handler ([POST /shopping-carts]) *)

Module Service.

Record CartProduct := mkCartProduct {
  ID : Z;
  Manufacturer : string;
  Category : string;
  Quantity : Z
}.

Record CartItem := mkCartItem {
  CustomerID : Z;
  Items : list CartProduct;
  CreatedAt : string;
  UpdatedAt : string
}.

(** The requests the handler sends to DynamoDB, in order. *)
Inductive request :=
| GetItem (customer_id : Z)
| PutItem (item : CartItem).

(** What the handler meets outside: whether the body binds to an
    [input] with a [customer_id], whether each DynamoDB request and the
    marshalling succeed, and the two readings of the clock. *)
Record env := mkEnv {
  bound : option Z;          (* [c.ShouldBindJSON(&input)]: the bound [CustomerID] *)
  get_fails : bool;          (* [GetItem] returns an error *)
  marshal_fails : bool;      (* [attributevalue.MarshalMap] returns an error *)
  put_fails : bool;          (* [PutItem] returns an error *)
  now1 : string;             (* [time.Now().Format(time.RFC3339)], [CreatedAt] *)
  now2 : string              (* the same call, for [UpdatedAt] *)
}.

(** The JSON bodies of the handler. *)
Inductive body :=
| Error (msg : string)
| AlreadyExists (message : string) (id customer_id : Z)
| CreatedBody (id customer_id : Z) (message created_at : string).

Record response := mkResponse { status : Z; payload : body }.

Record result := mkResult {
  reply : response;
  issued : list request;          (* the requests sent to the store *)
  carts : gmap Z CartItem         (* the carts table afterwards *)
}.

(** The decimal text of [%d]. *)
Definition itoa (z : Z) : string := pretty z.

Definition createShoppingCart (e : env) (table : gmap Z CartItem) : result :=
  match bound e with
  | None => mkResult (mkResponse 400 (Error "customer_id is required")) [] table
  | Some customerID =>
      (* [result, err := dynamoClient.GetItem(...)]; [result.Item] is
         the stored item, nil when there is none *)
      let issued := [GetItem customerID] in
      if negb (get_fails e) && bool_decide (is_Some (table !! customerID))
      then
          (* [err == nil && result.Item != nil] *)
          mkResult
            (mkResponse 200
               (AlreadyExists "Shopping cart already exists for this customer"
                              customerID customerID))
            issued table
      else
          let newCart := mkCartItem customerID [] (now1 e) (now2 e) in
          if marshal_fails e
          then mkResult (mkResponse 500 (Error "Failed to create cart")) issued table
          else
            let issued := issued ++ [PutItem newCart] in
            if put_fails e
            then mkResult (mkResponse 500 (Error "Failed to create cart")) issued table
            else
              mkResult
                (mkResponse 201
                   (CreatedBody customerID customerID
                      ("shopping cart created for customer " +:+ itoa customerID)
                      (CreatedAt newCart)))
                issued (<[CustomerID newCart := newCart]> table)
  end.

End Service.

(** ** The store functions of the service ([src/dynamo.go]) *)

Module Dynamo.

(** [ProductItem]: a product as stored in the products table. *)
Record ProductItem := mkProductItem {
  ID : Z;
  SKU : string;
  Manufacturer : string;
  CategoryID : Z;
  Weight : float;
  SomeOtherID : Z;
  Name : string;
  Category : string;
  Description : string;
  Brand : string
}.

(** A value and a nil error, or a nil value and an error. *)
Inductive res (A : Type) :=
| Ok (a : A)
| Err (msg : string).
Arguments Ok {A} a.
Arguments Err {A} msg.

(** What a read meets outside: the error of [GetItem] and the error of
    [attributevalue.UnmarshalMap], [None] for nil. *)
Record read := mkRead {
  get_err : option string;
  unmarshal_err : option string
}.

Definition GetProduct (e : read) (products : gmap Z ProductItem) (productID : Z)
  : res ProductItem :=
  match get_err e with
  | Some cause => Err ("failed to get product: " +:+ cause)
  | None =>
      match products !! productID with
      | None => Err "product not found"
      | Some product =>
          match unmarshal_err e with
          | Some cause => Err ("failed to unmarshal product: " +:+ cause)
          | None => Ok product
          end
      end
  end.

Definition GetCart (e : read) (carts : gmap Z Service.CartItem) (customerID : Z)
  : res Service.CartItem :=
  match get_err e with
  | Some cause => Err ("failed to get cart: " +:+ cause)
  | None =>
      match carts !! customerID with
      | None => Err ("cart not found for customer " +:+ Service.itoa customerID)
      | Some cart =>
          match unmarshal_err e with
          | Some cause => Err ("failed to unmarshal cart: " +:+ cause)
          | None => Ok cart
          end
      end
  end.

(** The loop of [AddToCart] (lines 167-174): the first item with the
    product id gets [quantity] added and the loop stops; [None] when the
    loop ends with [found == false]. *)
Fixpoint bump (productID quantity : Z) (items : list Service.CartProduct)
  : option (list Service.CartProduct) :=
  match items with
  | [] => None
  | item :: rest =>
      if Service.ID item =? productID
      then Some (Service.mkCartProduct (Service.ID item) (Service.Manufacturer item)
                   (Service.Category item)
                   (int_add (Service.Quantity item) quantity) :: rest)
      else match bump productID quantity rest with
           | Some rest' => Some (item :: rest')
           | None => None
           end
  end.

(** Lines 166-191: the items of the cart after the loop and the append. *)
Definition merge (product : ProductItem) (productID quantity : Z)
           (items : list Service.CartProduct) : list Service.CartProduct :=
  match bump productID quantity items with
  | Some items' => items'
  | None =>
      items ++ [Service.mkCartProduct (ID product) (Manufacturer product)
                                      (Category product) quantity]
  end.

(** What [AddToCart] meets outside: its two reads, the clock, the error
    of [MarshalMap] and the error of [PutItem]. *)
Record write := mkWrite {
  product_read : read;
  cart_read : read;
  now : string;
  marshal_err : option string;
  put_err : option string
}.

(** [AddToCart]: the error it returns ([None] for nil) and the carts
    table afterwards.  [PutItem] stores the item under its own
    [customer_id]. *)
Definition AddToCart (e : write) (products : gmap Z ProductItem)
           (carts : gmap Z Service.CartItem) (customerID productID quantity : Z)
  : option string * gmap Z Service.CartItem :=
  match GetProduct (product_read e) products productID with
  | Err msg => (Some ("product not found: " +:+ msg), carts)
  | Ok product =>
      match GetCart (cart_read e) carts customerID with
      | Err msg => (Some ("failed to get cart: " +:+ msg), carts)
      | Ok cart =>
          let cart' :=
            Service.mkCartItem (Service.CustomerID cart)
              (merge product productID quantity (Service.Items cart))
              (Service.CreatedAt cart) (now e) in
          match marshal_err e with
          | Some cause => (Some ("failed to marshal cart: " +:+ cause), carts)
          | None =>
              match put_err e with
              | Some cause => (Some ("failed to update cart: " +:+ cause), carts)
              | None => (None, <[Service.CustomerID cart' := cart']> carts)
              end
          end
      end
  end.

(** A table whose items are stored under their own key attribute, as
    DynamoDB tables are. *)
Definition keyed_products (products : gmap Z ProductItem) : Prop :=
  forall k product, products !! k = Some product -> ID product = k.

Definition keyed_carts (carts : gmap Z Service.CartItem) : Prop :=
  forall k cart, carts !! k = Some cart -> Service.CustomerID cart = k.

(** The quantity a cart lists for a product, 0 when it does not list it. *)
Fixpoint quantity_of (productID : Z) (items : list Service.CartProduct) : Z :=
  match items with
  | [] => 0
  | item :: rest =>
      if Service.ID item =? productID then Service.Quantity item
      else quantity_of productID rest
  end.

(** The product ids of a cart, in order. *)
Definition product_ids (items : list Service.CartProduct) : list Z :=
  Service.ID <$> items.

End Dynamo.

(** ** Seeding the products table ([SeedData], [src/dynamo.go] 213-289) *)

Module Seed.

(** [Item]: a product of the catalogue.  The type is declared in a file
    that is not at hand; its fields are those [SeedData] copies. *)
Record Item := mkItem {
  ID : Z;
  SKU : string;
  Manufacturer : string;
  CategoryID : Z;
  Weight : float;
  SomeOtherID : Z;
  Name : string;
  Category : string;
  Description : string;
  Brand : string
}.

(** Lines 228-239: the same fields, with the DynamoDB tags. *)
Definition convert (product : Item) : Dynamo.ProductItem :=
  Dynamo.mkProductItem (ID product) (SKU product) (Manufacturer product)
    (CategoryID product) (Weight product) (SomeOtherID product) (Name product)
    (Category product) (Description product) (Brand product).

(** The log lines of [SeedData], by what they say. *)
Inductive log_line :=
| Seeding
| Starting
| MarshalWarning (id : Z)
| BatchWarning
| Progress (seeded : Z)
| FinalWarning
| Completed (products batches : Z).

(** What [SeedData] meets outside: which products fail to marshal, and
    which calls of [BatchWriteItem] fail, by their number. *)
Record outside := mkOutside {
  marshal_fails : Item -> bool;
  write_fails : nat -> bool
}.

(** The variables of the loop and what the function has done so far. *)
Record progress := mkProgress {
  writeRequests : list Dynamo.ProductItem;
  batchCount : Z;
  sent : list (list Dynamo.ProductItem);   (* the batches handed to [BatchWriteItem] *)
  logged : list log_line
}.

(** One iteration of the loop (lines 226-272). *)
Definition visit (e : outside) (p : progress) (product : Item) : progress :=
  if marshal_fails e product
  then mkProgress (writeRequests p) (batchCount p) (sent p)
                  (logged p ++ [MarshalWarning (ID product)])
  else
    let requests := writeRequests p ++ [convert product] in
    if (length requests =? 25)%nat
    then
      let warned :=
        if write_fails e (length (sent p)) then logged p ++ [BatchWarning]
        else logged p in
      let count := int_add (batchCount p) 1 in
      let told :=
        if Z.rem count 100 =? 0 then warned ++ [Progress (wrap64 (count * 25))]
        else warned in
      mkProgress [] count (sent p ++ [requests]) told
    else mkProgress requests (batchCount p) (sent p) (logged p).

(** Lines 274-285: the batch that is left. *)
Definition flush (e : outside) (p : progress) : progress :=
  if (0 <? length (writeRequests p))%nat
  then
    let warned :=
      if write_fails e (length (sent p)) then logged p ++ [FinalWarning]
      else logged p in
    mkProgress (writeRequests p) (int_add (batchCount p) 1)
               (sent p ++ [writeRequests p]) warned
  else p.

(** [SeedData]; [visited] lists the values of [productsMap] in the order
    in which [range] yields them.  The function returns a nil error on
    every path. *)
Definition SeedData (e : outside) (visited : list Item) : progress :=
  let p := fold_left (visit e) visited (mkProgress [] 0 [] [Seeding; Starting]) in
  let p := flush e p in
  mkProgress (writeRequests p) (batchCount p) (sent p)
             (logged p ++ [Completed (Z.of_nat (length visited)) (batchCount p)]).

(** The products that marshal, converted, in the order of the visit. *)
Definition marshalled (e : outside) (visited : list Item) : list Dynamo.ProductItem :=
  convert <$> List.filter (fun product => negb (marshal_fails e product)) visited.

End Seed.

(** ** The other handlers of the service *)

Module Api.

Record CartItemResponse := mkCartItemResponse {
  ID : Z;
  ProductID : Z;
  Manufacturer : string;
  Category : string;
  Quantity : Z;
  CreatedAt : string;
  UpdatedAt : string
}.

(** [ShoppingCartResponse]; the fields are [ID], [CustomerID], [Items],
    [CreatedAt] and [UpdatedAt]. *)
Record ShoppingCartResponse := mkShoppingCartResponse {
  cart_ID : Z;
  cart_CustomerID : Z;
  cart_Items : list CartItemResponse;
  cart_CreatedAt : string;
  cart_UpdatedAt : string
}.

Record SearchResponse := mkSearchResponse {
  Products : list Seed.Item;
  TotalFound : Z;
  TotalSearched : Z;
  SearchTime : string
}.

(** The JSON bodies of the handlers. *)
Inductive body :=
| ErrorBody (error : string)
| Problem (error message details : string)
| CartBody (cart : ShoppingCartResponse)
| AddedBody (message : string) (product_id quantity : Z)
| AddedItemBody (message : string) (item : CartItemResponse)
| SearchBody (found : SearchResponse)
| ItemBody (item : Seed.Item)
| NoBody.

Record response := mkResponse { status : Z; payload : body }.

(** Lines 145-155: one response item per cart item, numbered from 1. *)
Definition response_items (cart : Service.CartItem) : list CartItemResponse :=
  imap (fun i item =>
          mkCartItemResponse (int_add (Z.of_nat i) 1) (Service.ID item)
            (Service.Manufacturer item) (Service.Category item)
            (Service.Quantity item) (Service.CreatedAt cart) (Service.UpdatedAt cart))
       (Service.Items cart).

(** [getShoppingCart]; [customerID] is what [strconv.Atoi] makes of the
    [id] parameter, [None] for an error. *)
Definition getShoppingCart (customerID : option Z) (e : Dynamo.read)
           (carts : gmap Z Service.CartItem) : response :=
  match customerID with
  | None => mkResponse 400 (ErrorBody "Invalid customer ID")
  | Some customerID =>
      match Dynamo.GetCart e carts customerID with
      | Dynamo.Err _ => mkResponse 500 (ErrorBody "Internal server error")
      | Dynamo.Ok cart =>
          mkResponse 200
            (CartBody (mkShoppingCartResponse customerID (Service.CustomerID cart)
                         (response_items cart) (Service.CreatedAt cart)
                         (Service.UpdatedAt cart)))
      end
  end.

(** Lines 220-234: the first item of the cart with the product id, the
    zero value when there is none. *)
Fixpoint added_item (product : Dynamo.ProductItem) (productID : Z)
         (cart : Service.CartItem) (i : nat) (items : list Service.CartProduct)
  : CartItemResponse :=
  match items with
  | [] => mkCartItemResponse 0 0 "" "" 0 "" ""
  | item :: rest =>
      if Service.ID item =? productID
      then mkCartItemResponse (int_add (Z.of_nat i) 1) (Service.ID item)
             (Dynamo.Manufacturer product) (Dynamo.Category product)
             (Service.Quantity item) (Service.CreatedAt cart) (Service.UpdatedAt cart)
      else added_item product productID cart (S i) rest
  end.

(** What [addItemToCart] meets outside: its own read of the product, what
    [AddToCart] meets, and the read of the updated cart. *)
Record adding := mkAdding {
  first_read : Dynamo.read;
  add : Dynamo.write;
  last_read : Dynamo.read
}.

(** [addItemToCart]; [customerID] is the [Atoi] of the [id] parameter and
    [bound] the [ProductID] and [Quantity] the body binds to. *)
Definition addItemToCart (customerID : option Z) (bound : option (Z * Z)) (e : adding)
           (products : gmap Z Dynamo.ProductItem) (carts : gmap Z Service.CartItem)
  : response * gmap Z Service.CartItem :=
  match customerID with
  | None => (mkResponse 400 (ErrorBody "Invalid customer ID"), carts)
  | Some customerID =>
      match bound with
      | None =>
          (mkResponse 400 (ErrorBody "product_id and quantity (min 1) are required"),
           carts)
      | Some (productID, quantity) =>
          match Dynamo.GetProduct (first_read e) products productID with
          | Dynamo.Err _ => (mkResponse 400 (ErrorBody "Product not found"), carts)
          | Dynamo.Ok product =>
              match Dynamo.AddToCart (add e) products carts customerID productID quantity with
              | (Some _, carts') =>
                  (mkResponse 500 (ErrorBody "Failed to add item to cart"), carts')
              | (None, carts') =>
                  match Dynamo.GetCart (last_read e) carts' customerID with
                  | Dynamo.Err _ =>
                      (mkResponse 200 (AddedBody "Item added to cart" productID quantity),
                       carts')
                  | Dynamo.Ok cart =>
                      (mkResponse 200
                         (AddedItemBody "Item added to cart successfully"
                            (added_item product productID cart 0 (Service.Items cart))),
                       carts')
                  end
              end
          end
      end
  end.

(** [generateRandomIDs]; [draw i k] is what the [i]-th call [rand.Intn(k)]
    returns.  [None] stands for a panic: [make] with a negative length, or
    [rand.Intn] with an argument that is not positive. *)
Fixpoint fill (draw : nat -> Z -> Z) (min max : Z) (i todo : nat) : option (list Z) :=
  match todo with
  | O => Some []
  | S todo' =>
      let k := int_add (int_add max (- min)) 1 in
      if k <=? 0 then None
      else match fill draw min max (S i) todo' with
           | Some ids => Some (int_add (draw i k) min :: ids)
           | None => None
           end
  end.

Definition generateRandomIDs (draw : nat -> Z -> Z) (n min max : Z) : option (list Z) :=
  if n <? 0 then None else fill draw min max 0 (Z.to_nat n).

Section Search.
(** [strings.ToLower] and [strings.Contains]. *)
Variable ToLower : string -> string.
Variable Contains : string -> string -> bool.

Definition matches (queryLower : string) (item : Seed.Item) : bool :=
  Contains (ToLower (Seed.Name item)) queryLower
  || Contains (ToLower (Seed.Category item)) queryLower
  || Contains (ToLower (Seed.Brand item)) queryLower.

(** The variables of the search loop. *)
Record hits := mkHits {
  matchingProducts : list Seed.Item;
  totalFound : Z;
  totalSearched : Z
}.

(** One iteration of the search loop (lines 271-293). *)
Definition look (syncProducts : gmap Z Seed.Item) (queryLower : string)
           (t : hits) (productID : Z) : hits :=
  let searched := int_add (totalSearched t) 1 in
  match syncProducts !! productID with
  | Some item =>
      if matches queryLower item
      then
        let found := int_add (totalFound t) 1 in
        if (length (matchingProducts t) <? 20)%nat
        then mkHits (matchingProducts t ++ [item]) found searched
        else mkHits (matchingProducts t) found searched
      else mkHits (matchingProducts t) (totalFound t) searched
  | None => mkHits (matchingProducts t) (totalFound t) searched
  end.

(** [searchProducts]; [searchTime] is the formatted duration.  A panic in
    the body is recovered into a 500 reply. *)
Definition searchProducts (query : string) (draw : nat -> Z -> Z) (searchTime : string)
           (syncProducts : gmap Z Seed.Item) : response :=
  if bool_decide (query = "")
  then mkResponse 400 (ErrorBody "Query parameter 'q' is required")
  else
    let queryLower := ToLower query in
    match generateRandomIDs draw 100 1 100000 with
    | None =>
        mkResponse 500 (Problem "INTERNAL_SERVER_ERROR" "something went wrong"
                                "invalid argument to Intn")
    | Some randomIDs =>
        let t := fold_left (look syncProducts queryLower) randomIDs (mkHits [] 0 0) in
        mkResponse 200
          (SearchBody (mkSearchResponse (matchingProducts t) (totalFound t)
                                        (totalSearched t) searchTime))
    end.

End Search.

(** [postItem]; [productID] is the [Atoi] of the [productId] parameter,
    [bound] the [Item] the body binds to or the text of the binding error.
    The result is the reply and the product map afterwards. *)
Definition postItem (productID : option Z) (bound : Seed.Item + string)
           (syncProducts : gmap Z Seed.Item) : response * gmap Z Seed.Item :=
  match productID with
  | None =>
      (mkResponse 400 (Problem "INVALID_INPUT" "data input invalid" "invalid productId"),
       syncProducts)
  | Some productID =>
      match syncProducts !! productID with
      | None =>
          (mkResponse 404
             (Problem "NOT_FOUND" "product not found"
                      ("no item with ID " +:+ Service.itoa productID)),
           syncProducts)
      | Some _ =>
          match bound with
          | inr why =>
              (mkResponse 400
                 (Problem "INVALID_INPUT" "The provided input data is invalid" why),
               syncProducts)
          | inl newDetails =>
              if negb (Seed.ID newDetails =? productID)
              then
                (mkResponse 400
                   (Problem "INVALID_INPUT" "data input invalid"
                            "product_id in body does not match route parameter"),
                 syncProducts)
              else (mkResponse 204 NoBody, <[productID := newDetails]> syncProducts)
          end
      end
  end.

(** [getItemByID]. *)
Definition getItemByID (productID : option Z) (syncProducts : gmap Z Seed.Item)
  : response :=
  match productID with
  | None =>
      mkResponse 400 (Problem "INVALID_INPUT" "data input invalid" "invalid productID")
  | Some productID =>
      match syncProducts !! productID with
      | None =>
          mkResponse 404
            (Problem "INVALID_INPUT" "product not found"
                     ("no item with ID " +:+ Service.itoa productID))
      | Some item => mkResponse 200 (ItemBody item)
      end
  end.

End Api.

(** ** Measures used to state what the harness computes *)

Module Measures.

(** Successful and failed records of one kind in a result list. *)
Definition successes (opType : string) (results : list TestResult) : nat :=
  length (filter (fun r => Operation r = opType /\ Success r = true) results).

Definition failures (opType : string) (results : list TestResult) : nat :=
  length (filter (fun r => Operation r = opType /\ Success r = false) results).

(** The sum of the successful counts of all entries of a mapping. *)
Definition total_successful (stats : gmap string OpStats) : Z :=
  map_fold (fun _ stat acc => Successful stat + acc) 0 stats.

(** Successful records of any kind. *)
Definition successful (results : list TestResult) : nat :=
  length (filter (fun r => Success r = true) results).

End Measures.

(** ** What the goroutines that are back from their task tell *)

Module Back.

(** Every goroutine that is back from [taskFunc] ran a task that
    returned. *)
Definition back_ok (taskFunc : nat -> Runner.effect) (s : Runner.state) : Prop :=
  forall k p, Runner.gs s !! k = Some p -> Runner.past p = true ->
              exists rs, taskFunc k = Runner.Appends rs.

End Back.

(** ** Concrete inputs used to exercise the statements *)

Module Samples.
Import Http Runner Driver.

Definition created : TestResult :=
  mkTestResult "create_cart" 12.5%float true 201 "2025-01-01T00:00:00Z" 10000.
Definition refused : TestResult :=
  mkTestResult "get_cart" 3%float false 0 "2025-01-01T00:00:01Z" 10000.
Definition added : TestResult :=
  mkTestResult "add_items" 7.25%float true 200 "2025-01-01T00:00:02Z" 10001.

Definition three_records : list TestResult := [created; refused; created].

Definition args : list string := ["loadtest"; "http://localhost:8080"].

(** The service answers 201 to everything but the request of task 7,
    which fails in transport. *)
Definition flaky (i : nat) : reply :=
  if (i =? 7)%nat then TransportError "connection refused" else Received 201.

Definition healthy_world : world := calm (Received 200) flaky.
Definition sick_world : world := calm (Received 500) flaky.

(** Twelve tasks, all started, the first ten admitted. *)
Definition twelve (k : nat) : effect := Appends [created].
Definition crowd : list actor :=
  replicate 12 Main ++ (Go <$> seq 0 10).

(** Two of three tasks started and admitted, task 1 about to panic. *)
Definition before_panic : list actor := [Main; Main; Main; Go 0; Go 1].

End Samples.

(** ** Well-formed tables and calls that meet no error *)

Module Carts.

(** No cart lists a product twice. *)
Definition distinct_carts (carts : gmap Z Service.CartItem) : Prop :=
  forall k cart, carts !! k = Some cart ->
                 NoDup (Dynamo.product_ids (Service.Items cart)).

(** A read, and a write, that meet no error outside. *)
Definition good_read (e : Dynamo.read) : Prop :=
  Dynamo.get_err e = None /\ Dynamo.unmarshal_err e = None.

Definition good_write (e : Dynamo.write) : Prop :=
  good_read (Dynamo.product_read e) /\ good_read (Dynamo.cart_read e)
  /\ Dynamo.marshal_err e = None /\ Dynamo.put_err e = None.

Definition quiet_read : Dynamo.read := Dynamo.mkRead None None.

Definition quiet_write (now : string) : Dynamo.write :=
  Dynamo.mkWrite quiet_read quiet_read now None None.

(** A product, a second one, and tables holding them and a cart. *)
Definition widget : Dynamo.ProductItem :=
  Dynamo.mkProductItem 5 "SKU-5" "Acme" 3 1.5%float 9 "Widget" "Tools" "A widget" "Acme".

Definition gadget : Dynamo.ProductItem :=
  Dynamo.mkProductItem 6 "SKU-6" "Apex" 4 0.5%float 8 "Gadget" "Toys" "A gadget" "Apex".

(** The widget as a catalogue item, under id 1. *)
Definition listed_widget : Seed.Item :=
  Seed.mkItem 1 "SKU-1" "Acme" 3 1.5%float 9 "Widget" "Tools" "A widget" "Acme".

Definition shelf : gmap Z Dynamo.ProductItem := <[6 := gadget]> (<[5 := widget]> ∅).

Definition one_cart : gmap Z Service.CartItem :=
  <[7 := Service.mkCartItem 7 [Service.mkCartProduct 5 "Acme" "Tools" 2]
                            "2025-01-01T00:00:00Z" "2025-01-01T00:00:00Z"]> ∅.

(** What the loop of [searchProducts] keeps, after the ids [ids], having
    started with [start] ids looked at: the count of ids looked at, the
    count of hits, and the products collected: as many as the hits, up to
    20, each matching the query and stored under one of the ids. *)
Definition kept (ToLower : string -> string) (Contains : string -> string -> bool)
           (syncProducts : gmap Z Seed.Item) (queryLower : string)
           (ids : list Z) (start : Z) (t : Api.hits) : Prop :=
  Api.totalSearched t = start + Z.of_nat (length ids)
  /\ 0 <= Api.totalFound t <= Z.of_nat (length ids)
  /\ Z.of_nat (length (Api.matchingProducts t)) = Z.min (Api.totalFound t) 20
  /\ Forall (fun item =>
               Api.matches ToLower Contains queryLower item = true
               /\ exists id, id ∈ ids /\ syncProducts !! id = Some item)
            (Api.matchingProducts t).

End Carts.

Module SeedInv.

(** What the loop of [SeedData] keeps, after the products [seen]. *)
Record kept (e : Seed.outside) (seen : list Seed.Item) (p : Seed.progress) : Prop := mkKept {
  kept_items : mjoin (Seed.sent p) ++ Seed.writeRequests p = Seed.marshalled e seen;
  kept_full : Forall (fun b => length b = 25%nat) (Seed.sent p);
  kept_room : (length (Seed.writeRequests p) < 25)%nat;
  kept_count : Seed.batchCount p = Z.of_nat (length (Seed.sent p))
}.

End SeedInv.

(** ** More concrete inputs *)

Module Cases.

Definition slow : TestResult :=
  mkTestResult "create_cart" 40.5%float false 500 "2025-01-01T00:00:03Z" 10002.

Definition mixed : list TestResult :=
  [Samples.created; Samples.refused; slow; Samples.added; Samples.created].

End Cases.

(** * Properties *)

(** ** Machine integers *)

Section GoIntFacts.

Lemma wrap64_small z : min_int <= z <= max_int -> wrap64 z = z.
Proof.
  unfold wrap64, min_int, max_int. intros Hz.
  rewrite Z.mod_small; lia.
Qed.

Lemma int_add_small a b : min_int <= a + b <= max_int -> int_add a b = a + b.
Proof. apply wrap64_small. Qed.

End GoIntFacts.

(** ** The statistics engine *)

Module StatsFacts.
Import Stats.

Lemma lookup_create results :
  calculateStatistics results !! "create_cart" = Some (statFor results "create_cart").
Proof. unfold calculateStatistics. simpl. by simplify_map_eq. Qed.

Lemma lookup_add results :
  calculateStatistics results !! "add_items" = Some (statFor results "add_items").
Proof. unfold calculateStatistics. simpl. by simplify_map_eq. Qed.

Lemma lookup_get results :
  calculateStatistics results !! "get_cart" = Some (statFor results "get_cart").
Proof. unfold calculateStatistics. simpl. by simplify_map_eq. Qed.

Lemma lookup_other results kind :
  kind ∉ opTypes -> calculateStatistics results !! kind = None.
Proof.
  unfold calculateStatistics, opTypes. simpl. intros Hk.
  rewrite !lookup_insert_ne; [apply lookup_empty | | |];
    intros <-; apply Hk; set_solver.
Qed.

(** Every entry is the scan of its own kind. *)
Lemma lookup_Some results kind stat :
  calculateStatistics results !! kind = Some stat ->
  kind ∈ opTypes /\ stat = statFor results kind.
Proof.
  intros H. destruct (decide (kind ∈ opTypes)) as [Hin | Hout].
  - split; [done |].
    unfold opTypes in Hin.
    apply elem_of_cons in Hin as [-> | Hin]; [rewrite lookup_create in H; congruence |].
    apply elem_of_cons in Hin as [-> | Hin]; [rewrite lookup_add in H; congruence |].
    apply elem_of_cons in Hin as [-> | Hin]; [rewrite lookup_get in H; congruence |].
    by apply elem_of_nil in Hin.
  - rewrite lookup_other in H; done.
Qed.

Lemma lookup_opType results kind :
  kind ∈ opTypes -> calculateStatistics results !! kind = Some (statFor results kind).
Proof.
  unfold opTypes. intros Hin.
  apply elem_of_cons in Hin as [-> | Hin]; [apply lookup_create |].
  apply elem_of_cons in Hin as [-> | Hin]; [apply lookup_add |].
  apply elem_of_cons in Hin as [-> | Hin]; [apply lookup_get |].
  by apply elem_of_nil in Hin.
Qed.

Lemma scan_other kind stat r : Operation r <> kind -> scan kind stat r = stat.
Proof. intros Hne. unfold scan. by rewrite bool_decide_eq_false_2. Qed.

Lemma scan_absent kind results stat :
  (forall r, r ∈ results -> Operation r <> kind) ->
  fold_left (scan kind) results stat = stat.
Proof.
  revert stat. induction results as [| r results IH]; intros stat Habs; [done |].
  simpl. rewrite scan_other by (apply Habs; left).
  apply IH. intros r' Hr'. apply Habs. by right.
Qed.

Lemma matching_cons kind r results :
  matching kind (r :: results) =
  ((if bool_decide (Operation r = kind) then 1 else 0) + matching kind results)%nat.
Proof.
  unfold matching. rewrite filter_cons.
  destruct (decide (Operation r = kind)) as [He | Hne].
  - by rewrite bool_decide_eq_true_2.
  - by rewrite bool_decide_eq_false_2.
Qed.

Lemma matching_le kind results : (matching kind results <= length results)%nat.
Proof. unfold matching. apply length_filter. Qed.

(** One record: each counter moves by at most one, and none wraps. *)
Lemma scan_step kind stat r :
  0 <= Successful stat -> 0 <= Failed stat ->
  Count stat = Successful stat + Failed stat ->
  Count stat + 1 <= max_int ->
  0 <= Successful (scan kind stat r) /\ 0 <= Failed (scan kind stat r) /\
  Count (scan kind stat r) = Successful (scan kind stat r) + Failed (scan kind stat r) /\
  Count (scan kind stat r) =
    Count stat + (if bool_decide (Operation r = kind) then 1 else 0).
Proof.
  intros HS HF HC Hlen.
  assert (Hmin : min_int = - 2 ^ 63) by reflexivity.
  assert (Hmax : max_int = 2 ^ 63 - 1) by reflexivity.
  unfold scan. destruct (bool_decide (Operation r = kind)); [| lia].
  destruct (Success r); simpl; rewrite !int_add_small by lia; lia.
Qed.

(** The counters of the inner loop, as long as the list is no longer
    than a Go slice can be. *)
Lemma scan_counts kind results stat :
  0 <= Successful stat -> 0 <= Failed stat ->
  Count stat = Successful stat + Failed stat ->
  Count stat + Z.of_nat (length results) <= max_int ->
  let stat' := fold_left (scan kind) results stat in
  0 <= Successful stat' /\ 0 <= Failed stat' /\
  Count stat' = Successful stat' + Failed stat' /\
  Count stat' = Count stat + Z.of_nat (matching kind results).
Proof.
  revert stat. induction results as [| r results IH]; intros stat HS HF HC Hlen.
  - simpl. unfold matching. simpl. lia.
  - simpl fold_left. rewrite matching_cons.
    rewrite length_cons in Hlen.
    destruct (scan_step kind stat r) as (H1 & H2 & H3 & H4); try done; try lia.
    destruct (IH (scan kind stat r)) as (G1 & G2 & G3 & G4); try done.
    + destruct (bool_decide (Operation r = kind)); lia.
    + repeat split; try done.
      rewrite G4, H4. destruct (bool_decide (Operation r = kind)); lia.
Qed.

Lemma finish_counts stat :
  Count (finish stat) = Count stat /\ Successful (finish stat) = Successful stat
  /\ Failed (finish stat) = Failed stat.
Proof. unfold finish. by destruct (0 <? Count stat). Qed.

Lemma statFor_counts kind results :
  Z.of_nat (length results) <= max_int ->
  Count (statFor results kind) =
    Successful (statFor results kind) + Failed (statFor results kind)
  /\ Count (statFor results kind) = Z.of_nat (matching kind results).
Proof.
  intros Hlen. unfold statFor.
  destruct (finish_counts (fold_left (scan kind) results stat0)) as (-> & -> & ->).
  destruct (scan_counts kind results stat0) as (_ & _ & H3 & H4); simpl; try lia.
  simpl in H4. split; [done | lia].
Qed.

End StatsFacts.

Module StatsTotals.
Import Stats StatsFacts.

Lemma total_count_three results :
  total_count (calculateStatistics results) =
    Count (statFor results "get_cart")
    + (Count (statFor results "add_items")
       + (Count (statFor results "create_cart") + 0)).
Proof.
  unfold total_count, calculateStatistics, opTypes. simpl.
  rewrite map_fold_insert_L; [| intros; lia | by simplify_map_eq].
  rewrite map_fold_insert_L; [| intros; lia | by simplify_map_eq].
  rewrite map_fold_insert_L; [| intros; lia | by simplify_map_eq].
  by rewrite map_fold_empty.
Qed.

(** Records whose kind is one of the three are each counted once. *)
Lemma matching_partition results :
  Forall (fun r => Operation r ∈ opTypes) results ->
  (matching "create_cart" results + matching "add_items" results
   + matching "get_cart" results = length results)%nat.
Proof.
  induction 1 as [| r results Hr _ IH]; [done |].
  rewrite !matching_cons, length_cons, <- IH.
  unfold opTypes in Hr.
  apply elem_of_cons in Hr as [-> | Hr]; [simpl; lia |].
  apply elem_of_cons in Hr as [-> | Hr]; [simpl; lia |].
  apply elem_of_cons in Hr as [-> | Hr]; [simpl; lia |].
  by apply elem_of_nil in Hr.
Qed.

Lemma total_count_length results :
  Z.of_nat (length results) <= max_int ->
  Forall (fun r => Operation r ∈ opTypes) results ->
  total_count (calculateStatistics results) = Z.of_nat (length results).
Proof.
  intros Hlen Hall. rewrite total_count_three.
  destruct (statFor_counts "create_cart" results Hlen) as [_ ->].
  destruct (statFor_counts "add_items" results Hlen) as [_ ->].
  destruct (statFor_counts "get_cart" results Hlen) as [_ ->].
  pose proof (matching_partition results Hall). lia.
Qed.

End StatsTotals.

(** ** The phase runner *)

Module RunnerFacts.
Import Runner.

Local Open Scope nat_scope.

Lemma fold_addResult rs results :
  fold_left Http.addResult rs results = results ++ rs.
Proof.
  revert results. induction rs as [| r rs IH]; intros results; simpl.
  - by rewrite app_nil_r.
  - rewrite IH. unfold Http.addResult. by rewrite <- (assoc_L (++)).
Qed.

Lemma tally_app w l1 l2 : tally w (l1 ++ l2) = tally w l1 + tally w l2.
Proof. apply sum_list_with_app. Qed.

(** Moving one goroutine from [p] to [q] moves its weight. *)
Lemma tally_insert w l k p q :
  l !! k = Some p -> tally w (<[k := q]> l) + w p = tally w l + w q.
Proof.
  revert k. induction l as [| x l IH]; intros [| k] Hk; simplify_eq/=.
  - unfold tally. simpl. lia.
  - specialize (IH k Hk). unfold tally in *. simpl. lia.
Qed.

Lemma tally_live_zero l : tally live l = 0 -> Forall (fun p => p = Done) l.
Proof.
  induction l as [| x l IH]; intros H; [constructor |].
  unfold tally in *. simpl in H.
  constructor; [destruct x; simpl in H; first [done | lia] | apply IH; lia].
Qed.

Lemma in_task_le_holds l : tally in_task l <= tally holds_slot l.
Proof.
  induction l as [| x l IH]; [done |].
  unfold tally in *. simpl. destruct x; simpl; lia.
Qed.

Lemma emitted_app out l1 l2 :
  emitted out (l1 ++ l2) = emitted out l1 ++ emitted (fun k => out (length l1 + k)) l2.
Proof. unfold emitted. by rewrite imap_app, join_app. Qed.

Lemma emitted_cons out p l :
  emitted out (p :: l) = (if past p then out 0 else []) ++ emitted (out ∘ S) l.
Proof. unfold emitted. by rewrite imap_cons. Qed.

(** A move that does not cross the end of [taskFunc] emits nothing. *)
Lemma emitted_insert_same out l k p q :
  l !! k = Some p -> past p = past q -> emitted out (<[k := q]> l) = emitted out l.
Proof.
  revert out k. induction l as [| x l IH]; intros out [| k] Hk Hpq; simplify_eq/=.
  - rewrite !emitted_cons. by rewrite Hpq.
  - rewrite !emitted_cons. f_equal. by apply IH.
Qed.

(** The move out of [taskFunc] emits the records of that task. *)
Lemma emitted_insert_past out l k p q :
  l !! k = Some p -> past p = false -> past q = true ->
  emitted out (<[k := q]> l) ≡ₚ emitted out l ++ out k.
Proof.
  revert out k. induction l as [| x l IH]; intros out [| k] Hk Hp Hq; simplify_eq/=.
  - rewrite !emitted_cons, Hp, Hq. simpl. by rewrite Permutation_app_comm.
  - rewrite !emitted_cons. rewrite (IH (out ∘ S) k) by done.
    simpl. by rewrite (assoc_L (++)).
Qed.

Lemma emitted_all_done out l :
  Forall (fun p => p = Done) l -> emitted out l = mjoin (out <$> seq 0 (length l)).
Proof.
  revert out. induction l as [| x l IH]; intros out Hall; [done |].
  apply Forall_cons in Hall as [-> Hall].
  rewrite emitted_cons, IH by done. simpl.
  by rewrite <- fmap_S_seq, <- list_fmap_compose.
Qed.

Section Invariant.
Variable count : nat.
Variable taskFunc : nat -> effect.
Variable results0 : list TestResult.

Local Abbreviation inv := (Runner.inv count taskFunc results0).

Lemma inv_init : inv (init results0).
Proof.
  constructor; simpl; try done; try lia.
  - by left.
  - exists []. by rewrite app_nil_r.
Qed.

Lemma inv_step_main s c :
  inv s -> step_main count s = Some c -> exists s', c = Running s' /\ inv s'.
Proof.
  intros [Hst Hnx Hlp Hwg Hsm Hcap (fresh & Hres & Hperm) Hrt] Hstep. unfold step_main in Hstep.
  destruct (mpc s) eqn:Hpc.
  - destruct (next s <? count) eqn:Hlt; simplify_eq.
    + apply Nat.ltb_lt in Hlt.
      eexists; split; [done |]. constructor; simpl.
      * rewrite length_app. simpl. lia.
      * lia.
      * by left.
      * unfold unfinished in *. simpl. rewrite tally_app.
        unfold tally at 2. simpl. lia.
      * unfold admitted in *. simpl. rewrite tally_app.
        unfold tally at 2. simpl. lia.
      * done.
      * exists fresh. split; [done |].
        rewrite emitted_app. unfold emitted at 2. simpl.
        by rewrite app_nil_r.
      * done.
    + apply Nat.ltb_ge in Hlt.
      eexists; split; [done |].
      constructor; simpl; try done; try (by exists fresh).
      right. lia.
  - destruct (wg s =? 0)%Z eqn:Hz; simplify_eq.
    apply Z.eqb_eq in Hz.
    eexists; split; [done |].
    constructor; simpl; try done; try (by exists fresh).
    destruct Hlp; [congruence | by right].
  - done.
Qed.

(** A goroutine's move keeps the invariant; the process dies only
    when a task panics, and then with the result list as it was. *)
Lemma inv_step_go k s c :
  inv s -> step_go taskFunc k s = Some c ->
  match c with
  | Running s' => inv s'
  | Crashed rs msg =>
      gs s !! k = Some Task /\ taskFunc k = Panics msg /\ rs = results s
  end.
Proof.
  intros [Hst Hnx Hlp Hwg Hsm Hcap (fresh & Hres & Hperm) Hrt] Hstep.
  unfold step_go, set_pc in Hstep.
  destruct (gs s !! k) as [p |] eqn:Hk; [| done].
  pose proof (fun q => tally_insert live (gs s) k p q Hk) as Hlive.
  pose proof (fun q => tally_insert holds_slot (gs s) k p q Hk) as Hhold.
  pose proof (Hlive Task) as HlT. pose proof (Hhold Task) as HhT.
  pose proof (Hlive Release) as HlR. pose proof (Hhold Release) as HhR.
  pose proof (Hlive Finish) as HlF. pose proof (Hhold Finish) as HhF.
  pose proof (Hlive Done) as HlD. pose proof (Hhold Done) as HhD.
  clear Hlive Hhold. unfold unfinished, admitted in *.
  destruct p; simpl in *.
  - (* Acquire *)
    destruct (sem s <? NumWorkers) eqn:Hlt; simplify_eq.
    apply Nat.ltb_lt in Hlt.
    constructor; unfold unfinished, admitted; simpl; rewrite ?length_insert;
      try done; try lia.
    exists fresh. by rewrite (emitted_insert_same _ _ _ Acquire Task).
  - (* Task *)
    destruct (taskFunc k) as [rs | msg] eqn:Hrs; simplify_eq; [| done].
  rewrite fold_addResult.
    constructor; unfold unfinished, admitted; simpl; rewrite ?length_insert;
      try done; try lia.
    exists (fresh ++ rs). split; [by rewrite Hres, (assoc_L (++)) |].
    rewrite (emitted_insert_past _ _ _ Task Release) by done.
    replace (appended taskFunc k) with rs by (unfold appended; by rewrite Hrs).
    by rewrite Hperm.
  - (* Release *)
    destruct (sem s) as [| n] eqn:Hsem; simplify_eq.
    constructor; unfold unfinished, admitted; simpl; rewrite ?length_insert;
      try done; try lia.
    exists fresh. by rewrite (emitted_insert_same _ _ _ Release Finish).
  - (* Finish *)
    destruct (wg s - 1 <? 0)%Z eqn:Hneg; simplify_eq.
    { apply Z.ltb_lt in Hneg. lia. }
    constructor; unfold unfinished, admitted; simpl; rewrite ?length_insert;
      try done; try lia.
    + exists fresh. by rewrite (emitted_insert_same _ _ _ Finish Done).
    + intros Hret. specialize (Hrt Hret). lia.
  - done.
Qed.

Lemma inv_step a s c :
  inv s -> step count taskFunc a s = Some c ->
  match c with
  | Running s' => inv s'
  | Crashed rs msg =>
      exists k, a = Go k /\ gs s !! k = Some Task
                /\ taskFunc k = Panics msg /\ rs = results s
  end.
Proof.
  intros Hinv Hstep. destruct a as [| k]; simpl in Hstep.
  - destruct (inv_step_main s c Hinv Hstep) as (s' & -> & Hs'). done.
  - pose proof (inv_step_go k s c Hinv Hstep) as H.
    destruct c; [done |]. exists k. by destruct H as (? & ? & ?).
Qed.

Lemma run_crashed sched rs msg c :
  run count taskFunc sched (Crashed rs msg) = Some c -> sched = [] /\ c = Crashed rs msg.
Proof. destruct sched; simpl; intros H; by simplify_eq. Qed.

(** Every state a schedule reaches satisfies the invariant. *)
Lemma inv_run sched s s' :
  inv s -> run count taskFunc sched (Running s) = Some (Running s') -> inv s'.
Proof.
  revert s. induction sched as [| a sched IH]; intros s Hinv Hrun; simpl in Hrun.
  - by simplify_eq.
  - destruct (step count taskFunc a s) as [c |] eqn:Hstep; [| done].
    pose proof (inv_step a s c Hinv Hstep) as Hc.
    destruct c as [s1 | rs msg]; [by eapply IH |].
    by apply run_crashed in Hrun as [_ ?].
Qed.

(** Without a panicking task the process never dies. *)
Lemma run_faultless sched s c :
  faultless count taskFunc -> inv s ->
  run count taskFunc sched (Running s) = Some c -> exists s', c = Running s' /\ inv s'.
Proof.
  intros Hok. revert s.
  induction sched as [| a sched IH]; intros s Hinv Hrun; simpl in Hrun.
  - simplify_eq. eauto.
  - destruct (step count taskFunc a s) as [c1 |] eqn:Hstep; [| done].
    pose proof (inv_step a s c1 Hinv Hstep) as Hc.
    destruct c1 as [s1 | rs msg]; [by eapply IH |].
    destruct Hc as (k & _ & Hk & Hpanic & _).
    apply lookup_lt_Some in Hk. destruct Hinv.
    destruct (Hok k) as [rs' Hrs']; [lia | congruence].
Qed.

(** Back from the call: every goroutine was started and has finished,
    and the result list holds the records of all tasks. *)
Lemma inv_returned_all s :
  inv s -> mpc s = Returned ->
  length (gs s) = count /\ Forall (fun p => p = Done) (gs s)
  /\ exists fresh, results s = results0 ++ fresh
                   /\ fresh ≡ₚ mjoin (appended taskFunc <$> seq 0 count).
Proof.
  intros [Hst Hnx Hlp Hwg Hsm Hcap (fresh & Hres & Hperm) Hrt] Hret.
  assert (Hdone : Forall (fun p => p = Done) (gs s)).
  { apply tally_live_zero. specialize (Hrt Hret).
    unfold unfinished in Hwg. lia. }
  assert (Hlen : length (gs s) = count).
  { destruct Hlp; [congruence | lia]. }
  repeat split; try done.
  exists fresh. split; [done |].
  by rewrite Hperm, emitted_all_done, Hlen.
Qed.

End Invariant.

(** *** No deadlock, and no run without end *)

Lemma tally_in w l k p : l !! k = Some p -> w p <= tally w l.
Proof.
  intros Hk. unfold tally. apply sum_list_with_in.
  by eapply list_elem_of_lookup_2.
Qed.

(** A goroutine that is in its task or behind it, or else all of them
    wait for a slot or have finished. *)
Lemma busy_or_idle l :
  (exists k p, l !! k = Some p /\ p <> Acquire /\ p <> Done)
  \/ Forall (fun p => p = Acquire \/ p = Done) l.
Proof.
  induction l as [| x l [(k & p & Hk & Hp) | Hall]].
  - right. constructor.
  - left. by exists (S k), p.
  - destruct x.
    + right. constructor; [by left | done].
    + left. by exists 0, Task.
    + left. by exists 0, Release.
    + left. by exists 0, Finish.
    + right. constructor; [by right | done].
Qed.

Lemma idle_holds_nothing l :
  Forall (fun p => p = Acquire \/ p = Done) l -> tally holds_slot l = 0.
Proof.
  induction 1 as [| x l [-> | ->] _ IH]; [done | |]; unfold tally in *; simpl; lia.
Qed.

Lemma live_exists l : 0 < tally live l -> exists k p, l !! k = Some p /\ p <> Done.
Proof.
  induction l as [| x l IH]; unfold tally; simpl; [lia |]. intros Hpos.
  destruct x; [by exists 0, Acquire | by exists 0, Task | by exists 0, Release
               | by exists 0, Finish |].
  destruct IH as (k & p & Hk & Hp); [simpl in Hpos; unfold tally; lia |].
  by exists (S k), p.
Qed.

Section Progress.
Variable count : nat.
Variable taskFunc : nat -> effect.
Variable results0 : list TestResult.

Local Abbreviation inv := (Runner.inv count taskFunc results0).

(** Until the call has returned, somebody can move. *)
Lemma progress s :
  inv s -> mpc s <> Returned -> exists a c, step count taskFunc a s = Some c.
Proof.
  intros [Hst Hnx Hlp Hwg Hsm Hcap _ Hrt] Hrun.
  destruct (mpc s) eqn:Hpc; [| | done].
  { exists Main. simpl. unfold step_main. rewrite Hpc.
    destruct (next s <? count); eauto. }
  destruct (decide (wg s = 0%Z)) as [Hz | Hz].
  { exists Main. simpl. unfold step_main. rewrite Hpc, Hz. simpl. eauto. }
  destruct (busy_or_idle (gs s)) as [(k & p & Hk & Hp1 & Hp2) | Hidle].
  - exists (Go k). simpl. unfold step_go. rewrite Hk.
    destruct p; try done.
    + destruct (taskFunc k); eauto.
    + pose proof (tally_in holds_slot _ _ _ Hk) as Hle. simpl in Hle.
      unfold admitted in Hsm. destruct (sem s); [lia | eauto].
    + destruct (wg s - 1 <? 0)%Z; eauto.
  - destruct (live_exists (gs s)) as (k & p & Hk & Hp).
    { unfold unfinished in Hwg. lia. }
    assert (p = Acquire) as ->.
    { rewrite Forall_forall in Hidle.
      destruct (Hidle p) as [? | ?]; [by eapply list_elem_of_lookup_2 | done | done]. }
    exists (Go k). simpl. unfold step_go. rewrite Hk.
    rewrite Hsm. unfold admitted. rewrite (idle_holds_nothing _ Hidle).
    simpl. eauto.
Qed.

(** Every move uses up one of the moves that are left. *)
Lemma step_moves_left a s s' :
  inv s -> step count taskFunc a s = Some (Running s') ->
  S (moves_left count s') = moves_left count s.
Proof.
  intros [Hst Hnx Hlp Hwg Hsm Hcap _ Hrt] Hstep. unfold moves_left.
  destruct a as [| k]; simpl in Hstep.
  - unfold step_main in Hstep. destruct (mpc s) eqn:Hpc; [| | done].
    + destruct (next s <? count) eqn:Hlt; simplify_eq; simpl.
      * apply Nat.ltb_lt in Hlt. rewrite tally_app. unfold tally at 2. simpl. lia.
      * lia.
    + destruct (wg s =? 0)%Z; simplify_eq. simpl. lia.
  - unfold step_go, set_pc in Hstep.
    destruct (gs s !! k) as [p |] eqn:Hk; [| done].
    pose proof (fun q => tally_insert rank (gs s) k p q Hk) as Hrank.
    destruct p; simpl in *.
    + destruct (sem s <? NumWorkers); simplify_eq. simpl.
      specialize (Hrank Task). simpl in Hrank. lia.
    + destruct (taskFunc k); simplify_eq. simpl.
      specialize (Hrank Release). simpl in Hrank. lia.
    + destruct (sem s); simplify_eq. simpl.
      specialize (Hrank Finish). simpl in Hrank. lia.
    + destruct (wg s - 1 <? 0)%Z; simplify_eq. simpl.
      specialize (Hrank Done). simpl in Hrank. lia.
    + done.
Qed.

(** No run of the call is longer than the moves that are left. *)
Lemma run_bounded sched s c :
  inv s -> run count taskFunc sched (Running s) = Some c ->
  length sched <= moves_left count s.
Proof.
  revert s. induction sched as [| a sched IH]; intros s Hinv Hrun; simpl in *; [lia |].
  destruct (step count taskFunc a s) as [c1 |] eqn:Hstep; [| done].
  pose proof (inv_step count taskFunc results0 a s c1 Hinv Hstep) as Hc1.
  destruct c1 as [s1 | rs msg].
  - pose proof (step_moves_left a s s1 Hinv Hstep).
    specialize (IH s1 Hc1 Hrun). lia.
  - apply run_crashed in Hrun as [-> _].
    destruct Hc1 as (k & _ & Hk & _).
    pose proof (tally_in rank _ _ _ Hk) as Hle. simpl in *.
    unfold moves_left. lia.
Qed.

(** From every state the call reaches, it can be run to its end. *)
Lemma completes s :
  inv s -> exists sched c, run count taskFunc sched (Running s) = Some c /\ over c.
Proof.
  remember (moves_left count s) as n eqn:Hn. revert s Hn.
  induction n as [n IH] using lt_wf_ind. intros s Hn Hinv.
  assert (mpc s = Returned \/ mpc s <> Returned) as [Hret | Hrun]
    by (destruct (mpc s); [by right | by right | by left]).
  { exists [], (Running s). by split. }
  destruct (progress s Hinv Hrun) as (a & c & Hstep).
  pose proof (inv_step count taskFunc results0 a s c Hinv Hstep) as Hc.
  destruct c as [s1 | rs msg].
  - pose proof (step_moves_left a s s1 Hinv Hstep) as Hless.
    destruct (IH (moves_left count s1)) with (s := s1) as (sched & c & Hsched & Hover);
      [lia | done | done |].
    exists (a :: sched), c. simpl. by rewrite Hstep.
  - exists [a], (Crashed rs msg). simpl. by rewrite Hstep.
Qed.

End Progress.

(** *** The sequential schedule is a run of the call to its end *)

Lemma lookup_last_started n p : (replicate n Done ++ [p]) !! n = Some p.
Proof.
  rewrite lookup_app_r by (rewrite length_replicate; lia).
  by rewrite length_replicate, Nat.sub_diag.
Qed.

Lemma insert_last_started n p q :
  <[n := q]> (replicate n Done ++ [p]) = replicate n Done ++ [q].
Proof.
  rewrite insert_app_r_alt by (rewrite length_replicate; lia).
  by rewrite length_replicate, Nat.sub_diag.
Qed.

Ltac go_step :=
  unfold step_go at 1; unfold set_pc; cbn [gs wg sem results mpc next];
  rewrite lookup_last_started, ?insert_last_started.

Lemma sequential_one count taskFunc n rs out rest :
  n < count -> taskFunc n = Appends out ->
  run count taskFunc ([Main; Go n; Go n; Go n; Go n] ++ rest) (Running (between n rs))
  = run count taskFunc rest (Running (between (S n) (rs ++ out))).
Proof.
  intros Hn Hout. unfold between. cbn [app run step step_main mpc next].
  apply Nat.ltb_lt in Hn. rewrite Hn.
  go_step. replace (0 <? NumWorkers) with true by reflexivity.
  go_step. rewrite Hout, fold_addResult.
  go_step.
  go_step. replace (0 + 1 - 1 <? 0)%Z with false by reflexivity.
  replace (0 + 1 - 1)%Z with 0%Z by reflexivity.
  by rewrite <- replicate_S_end.
Qed.

Lemma sequential_many count taskFunc m n rs rest :
  n + m <= count -> faultless count taskFunc ->
  run count taskFunc
      (flat_map (fun k => [Main; Go k; Go k; Go k; Go k]) (seq n m) ++ rest)
      (Running (between n rs))
  = run count taskFunc rest
        (Running (between (n + m) (rs ++ mjoin (appended taskFunc <$> seq n m)))).
Proof.
  intros Hle Hok. revert n rs Hle.
  induction m as [| m IH]; intros n rs Hle.
  - simpl. by rewrite Nat.add_0_r, app_nil_r.
  - destruct (Hok n) as [out Hout]; [lia |].
    cbn [seq flat_map]. rewrite <- (assoc_L (++)).
    rewrite (sequential_one count taskFunc n rs out) by (done || lia).
    rewrite IH by lia.
    replace (S n + m) with (n + S m) by lia.
    cbn [fmap list_fmap mjoin list_join]. unfold appended at 2. rewrite Hout.
    by rewrite (assoc_L (++)).
Qed.

(** With no panicking task, the sequential schedule brings the call
    back with the records of all tasks, in task order. *)
Lemma sequential_returns count taskFunc rs :
  faultless count taskFunc ->
  run count taskFunc (sequential count) (Running (init rs))
  = Some (Running (mkState Returned count 0 0 (replicate count Done)
                           (rs ++ mjoin (appended taskFunc <$> seq 0 count)))).
Proof.
  intros Hok. unfold sequential.
  change (init rs) with (between 0 rs).
  rewrite sequential_many by (done || lia).
  unfold between. cbn [run step step_main mpc next Nat.add].
  rewrite Nat.ltb_irrefl. by cbn.
Qed.

End RunnerFacts.

(** ** The orchestrator *)

Module DriverFacts.
Import Http Runner RunnerFacts Stats Driver.

Local Open Scope nat_scope.

Lemma customerIDs_length b : length (customerIDs b) = 50.
Proof. unfold customerIDs. by rewrite length_fmap, length_seq. Qed.

Lemma customerIDs_lookup b i :
  i < 50 -> customerIDs b !! i = Some (int_add b (Z.of_nat i)).
Proof.
  intros Hi. unfold customerIDs. rewrite list_lookup_fmap.
  change (Z.to_nat NumCreateCart) with 50.
  by rewrite lookup_seq_lt.
Qed.

Lemma pick_customerIDs b i :
  pick (customerIDs b) i = Some (int_add b (Z.of_nat (i mod 50))).
Proof.
  unfold pick. rewrite customerIDs_length.
  apply customerIDs_lookup. apply Nat.mod_upper_bound. lia.
Qed.

Section Tasks.
Variable w : world.
Let ids := customerIDs (int_add (rand_base w) 10000).

Lemma task1_appends i : i < 50 -> task1 w ids i = Appends [record1 w i].
Proof.
  intros Hi. unfold task1, ids. rewrite customerIDs_lookup by done.
  unfold record1, target. by rewrite Nat.mod_small.
Qed.

Lemma task2_appends i : task2 w ids i = Appends [record2 w i].
Proof. unfold task2, ids. by rewrite pick_customerIDs. Qed.

Lemma task3_appends i : task3 w ids i = Appends [record3 w i].
Proof. unfold task3, ids. by rewrite pick_customerIDs. Qed.

Lemma task1_faultless : faultless 50 (task1 w ids).
Proof. intros k Hk. eexists. by apply task1_appends. Qed.

Lemma task2_faultless : faultless 50 (task2 w ids).
Proof. intros k Hk. eexists. by apply task2_appends. Qed.

Lemma task3_faultless : faultless 50 (task3 w ids).
Proof. intros k Hk. eexists. by apply task3_appends. Qed.

Lemma appended_singletons taskFunc (record : nat -> TestResult) n :
  (forall i, i < n -> taskFunc i = Appends [record i]) ->
  mjoin (appended taskFunc <$> seq 0 n) = record <$> seq 0 n.
Proof.
  intros H.
  assert (Hall : forall l, Forall (fun i => i < n) l ->
            mjoin (appended taskFunc <$> l) = record <$> l).
  { induction 1 as [| i l Hi _ IH]; [done |].
    rewrite !fmap_cons. simpl. rewrite IH.
    unfold appended. by rewrite (H i Hi). }
  apply Hall. apply Forall_forall. intros i Hi.
  apply elem_of_seq in Hi. lia.
Qed.

End Tasks.

(** What a call of [runConcurrent] comes to when no task panics. *)
Lemma runConcurrent_faultless count taskFunc sched rs :
  faultless count taskFunc ->
  match runConcurrent count taskFunc sched rs with
  | PhaseReturned rs' =>
      exists fresh, rs' = rs ++ fresh
                    /\ fresh ≡ₚ mjoin (appended taskFunc <$> seq 0 count)
  | PhaseCrashed _ _ => False
  | NotARun => True
  end.
Proof.
  intros Hok. unfold runConcurrent.
  destruct (run count taskFunc sched (Running (init rs))) as [c |] eqn:Hrun; [| done].
  destruct (run_faultless count taskFunc rs sched _ c Hok (inv_init _ _ _) Hrun)
    as (s & -> & Hinv).
  destruct (mpc s) eqn:Hpc; try done.
  by destruct (inv_returned_all count taskFunc rs s Hinv Hpc) as (_ & _ & ?).
Qed.

Lemma runConcurrent_sequential count taskFunc rs :
  faultless count taskFunc ->
  runConcurrent count taskFunc (sequential count) rs
  = PhaseReturned (rs ++ mjoin (appended taskFunc <$> seq 0 count)).
Proof.
  intros Hok. unfold runConcurrent. by rewrite sequential_returns.
Qed.

(** A run that passes the probe goes through the three phases, each
    adding its fifty records after those of the phase before it. *)
Lemma main_healthy args w o :
  2 <= length args -> testConnectivity (health w) = true ->
  main args w = Some o ->
  exists rs1 rs2 rs3,
    rs1 ≡ₚ record1 w <$> seq 0 50 /\ rs2 ≡ₚ record2 w <$> seq 0 50
    /\ rs3 ≡ₚ record3 w <$> seq 0 50
    /\ o = report w (lines_to_phase3 w) (rs1 ++ rs2 ++ rs3).
Proof.
  intros Hargs Hprobe Hmain. unfold main in Hmain.
  apply Nat.ltb_ge in Hargs. rewrite Hargs, Hprobe in Hmain. simpl negb in Hmain.
  cbv iota in Hmain.
  change (Z.to_nat NumCreateCart) with 50 in Hmain.
  change (Z.to_nat NumAddItems) with 50 in Hmain.
  change (Z.to_nat NumGetCart) with 50 in Hmain.
  set (ids := customerIDs (int_add (rand_base w) 10000)) in *.
  pose proof (runConcurrent_faultless 50 (task1 w ids) (sched1 w) []
                (task1_faultless w)) as H1.
  destruct (runConcurrent 50 (task1 w ids) (sched1 w) []) as [rs1 | |]; try done.
  destruct H1 as (f1 & -> & Hf1).
  pose proof (runConcurrent_faultless 50 (task2 w ids) (sched2 w) ([] ++ f1)
                (task2_faultless w)) as H2.
  destruct (runConcurrent 50 (task2 w ids) (sched2 w) ([] ++ f1)) as [rs2 | |]; try done.
  destruct H2 as (f2 & -> & Hf2).
  pose proof (runConcurrent_faultless 50 (task3 w ids) (sched3 w) (([] ++ f1) ++ f2)
                (task3_faultless w)) as H3.
  destruct (runConcurrent 50 (task3 w ids) (sched3 w) (([] ++ f1) ++ f2))
    as [rs3 | |]; try done.
  destruct H3 as (f3 & -> & Hf3).
  exists f1, f2, f3.
  rewrite (appended_singletons _ (record1 w)) in Hf1 by (intros; by apply task1_appends).
  rewrite (appended_singletons _ (record2 w)) in Hf2 by (intros; by apply task2_appends).
  rewrite (appended_singletons _ (record3 w)) in Hf3 by (intros; by apply task3_appends).
  repeat split; try done.
  simplify_eq. simpl. by rewrite <- (assoc_L (++)).
Qed.

(** Under the sequential schedules a run that passes the probe comes to
    its end, with the records in task order. *)
Lemma main_sequential args w :
  2 <= length args -> testConnectivity (health w) = true ->
  sched1 w = sequential 50 -> sched2 w = sequential 50 -> sched3 w = sequential 50 ->
  main args w = Some (report w (lines_to_phase3 w) (all_records w)).
Proof.
  intros Hargs Hprobe Hs1 Hs2 Hs3. unfold main.
  apply Nat.ltb_ge in Hargs. rewrite Hargs, Hprobe, Hs1, Hs2, Hs3. simpl negb. cbv iota.
  change (Z.to_nat NumCreateCart) with 50.
  change (Z.to_nat NumAddItems) with 50.
  change (Z.to_nat NumGetCart) with 50.
  rewrite (runConcurrent_sequential 50 _ _ (task1_faultless w)).
  rewrite (runConcurrent_sequential 50 _ _ (task2_faultless w)).
  rewrite (runConcurrent_sequential 50 _ _ (task3_faultless w)).
  rewrite (appended_singletons _ (record1 w)) by (intros; by apply task1_appends).
  rewrite (appended_singletons _ (record2 w)) by (intros; by apply task2_appends).
  rewrite (appended_singletons _ (record3 w)) by (intros; by apply task3_appends).
  unfold all_records, lines_to_phase3. reflexivity.
Qed.

End DriverFacts.

(** ** The service handler *)

Module ServiceFacts.
Import Service.

Lemma create_fresh e table id :
  bound e = Some id -> get_fails e = false -> table !! id = None ->
  marshal_fails e = false -> put_fails e = false ->
  createShoppingCart e table =
    mkResult
      (mkResponse 201
         (CreatedBody id id ("shopping cart created for customer " +:+ itoa id) (now1 e)))
      [GetItem id; PutItem (mkCartItem id [] (now1 e) (now2 e))]
      (<[id := mkCartItem id [] (now1 e) (now2 e)]> table).
Proof.
  intros Hb Hg Hnone Hm Hp. unfold createShoppingCart.
  by rewrite Hb, Hg, Hnone, Hm, Hp.
Qed.

Lemma create_existing e table id cart :
  bound e = Some id -> get_fails e = false -> table !! id = Some cart ->
  createShoppingCart e table =
    mkResult
      (mkResponse 200
         (AlreadyExists "Shopping cart already exists for this customer" id id))
      [GetItem id] table.
Proof.
  intros Hb Hg Hsome. unfold createShoppingCart.
  by rewrite Hb, Hg, Hsome.
Qed.

End ServiceFacts.

(** * The claims of the design document *)

Import Http Runner RunnerFacts Stats StatsFacts StatsTotals Driver DriverFacts.
Import Samples.

Lemma run_app count taskFunc s1 s2 c :
  run count taskFunc (s1 ++ s2) c =
  match run count taskFunc s1 c with
  | Some c' => run count taskFunc s2 c'
  | None => None
  end.
Proof.
  revert c. induction s1 as [| a s1 IH]; intros c; [done |].
  simpl. destruct c as [s | rs msg]; [| done].
  destruct (step count taskFunc a s); [apply IH | done].
Qed.

Lemma testConnectivity_true h : testConnectivity h = true <-> h = Received 200.
Proof.
  unfold testConnectivity. destruct h as [st | msg | st msg]; simpl.
  - rewrite Z.eqb_eq. split; [by intros -> | by intros [= ->]].
  - split; done.
  - split; done.
Qed.

Lemma main_exit0 args w o :
  main args w = Some o -> how o = Exited 0 ->
  (2 <= length args)%nat /\ testConnectivity (health w) = true.
Proof.
  unfold main. intros Hmain Hhow.
  destruct (length args <? 2)%nat eqn:Hargs; [by simplify_eq |].
  apply Nat.ltb_ge in Hargs. split; [done |].
  destruct (testConnectivity (health w)); [done |].
  cbn [negb] in Hmain. by simplify_eq.
Qed.


(** ** Statistics *)

(** C2, as stated, fails: with no record at all in the input the mapping
    still has an entry for [create_cart], although no record of that kind
    is present. *)
Lemma absent_kind_has_entry :
  ~ (forall results kind,
        is_Some (calculateStatistics results !! kind) ->
        exists r, r ∈ results /\ Operation r = kind).
Proof.
  intros Hclaim.
  destruct (Hclaim [] "create_cart") as (r & Hr & _).
  - rewrite lookup_create. by eexists.
  - by apply elem_of_nil in Hr.
Qed.

(** C2, amended: the mapping has an entry for exactly the three kinds
    [create_cart], [add_items] and [get_cart], whatever the input; the
    entry of a kind with no record in the input has count, successful,
    failed, average, maximum and total 0 and minimum 999999. *)
Theorem stats_entries_fixed (results : list TestResult) (kind : string) :
  (is_Some (calculateStatistics results !! kind) <-> kind ∈ opTypes)
  /\ (kind ∈ opTypes ->
      (forall r, r ∈ results -> Operation r <> kind) ->
      calculateStatistics results !! kind
      = Some (mkOpStats 0 0 0 0%float 999999%float 0%float 0%float)).
Proof.
  split.
  - split.
    + intros [stat Hstat]. by apply lookup_Some in Hstat as [? _].
    + intros Hin. rewrite lookup_opType by done. by eexists.
  - intros Hin Habs. rewrite lookup_opType by done.
    unfold statFor. by rewrite scan_absent.
Qed.

Lemma stats_entries_fixed_witness :
  calculateStatistics [refused] !! "create_cart"
  = Some (mkOpStats 0 0 0 0%float 999999%float 0%float 0%float).
Proof.
  apply (stats_entries_fixed [refused] "create_cart").
  - unfold opTypes. set_solver.
  - intros r Hr. apply list_elem_of_singleton in Hr as ->. done.
Defined.

(** C7: in every entry of the computed mapping, count = successful +
    failed (for a result list no longer than a Go slice can be). *)
Theorem count_is_successful_plus_failed
        (results : list TestResult) (kind : string) (stat : OpStats) :
  Z.of_nat (length results) <= max_int ->
  calculateStatistics results !! kind = Some stat ->
  Count stat = Successful stat + Failed stat.
Proof.
  intros Hlen Hstat. apply lookup_Some in Hstat as [_ ->].
  by destruct (statFor_counts kind results Hlen) as [? _].
Qed.

Lemma count_is_successful_plus_failed_witness :
  Count (statFor three_records "create_cart")
  = Successful (statFor three_records "create_cart")
    + Failed (statFor three_records "create_cart").
Proof.
  apply (count_is_successful_plus_failed three_records "create_cart").
  - vm_compute. discriminate.
  - apply lookup_create.
Defined.

(** C9: computing the statistics twice in a row over the same result
    list gives the same mapping both times, field for field and bit for
    bit, and leaves the result list as it was. *)
Theorem statistics_idempotent (results : list TestResult) :
  let '(stats1, results1) := calculateStatistics_call results in
  let '(stats2, results2) := calculateStatistics_call results1 in
  stats1 = stats2 /\ results2 = results
  /\ forall kind, stats1 !! kind = stats2 !! kind.
Proof. unfold calculateStatistics_call. done. Qed.

(** ** The call sites *)

(** C6: on a received response, the create-cart and add-item records
    succeed exactly on status 200 or 201, the get-cart record exactly on
    status 200. *)
Theorem success_by_call_site (c : call) (customerID status : Z) :
  call_reply c = Received status ->
  (Success (createCart c customerID) = true <-> status = 200 \/ status = 201)
  /\ (Success (addItemToCart c customerID) = true <-> status = 200 \/ status = 201)
  /\ (Success (getCart c customerID) = true <-> status = 200).
Proof.
  intros Hreply. unfold createCart, addItemToCart, getCart, success_when.
  cbn [Success]. rewrite Hreply. cbn [err resp].
  rewrite orb_true_iff, !Z.eqb_eq. done.
Qed.

Lemma success_by_call_site_witness :
  (Success (createCart (mkCall (Received 201) 2500000 "now") 10000) = true
   <-> 201 = 200 \/ 201 = 201)
  /\ (Success (addItemToCart (mkCall (Received 201) 2500000 "now") 10000) = true
      <-> 201 = 200 \/ 201 = 201)
  /\ (Success (getCart (mkCall (Received 201) 2500000 "now") 10000) = true
      <-> 201 = 200).
Proof.
  apply (success_by_call_site (mkCall (Received 201) 2500000 "now") 10000 201).
  reflexivity.
Defined.

(** ** The phase runner *)

(** C1, as stated, fails: of three tasks the second panics once it has
    been admitted; the process dies there with an empty result list (no
    failed record for the task), and nothing moves afterwards (the two
    other tasks never complete). *)
Lemma panic_is_not_recovered :
  run 3 faulty before_panic (Running (init []))
  = Some (Running (mkState Loop 3 3 2 [Task; Task; Acquire] []))
  /\ run 3 faulty (before_panic ++ [Go 1]) (Running (init []))
     = Some (Crashed [] "runtime error: invalid memory address")
  /\ forall a, run 3 faulty (before_panic ++ [Go 1; a]) (Running (init [])) = None.
Proof. repeat split. Qed.

(** C1, amended: a task that raises a fault inside its body is not
    recovered; the fault ends the process at that point, with the result
    list as it was (no record for the task) and no further move of any
    task.  In a phase none of whose tasks faults the process never dies,
    and the phase can run all its tasks to completion and return. *)
Theorem fault_ends_the_process
        (count : nat) (taskFunc : nat -> effect) (rs : list TestResult) :
  (forall sched s k msg,
      run count taskFunc sched (Running (init rs)) = Some (Running s) ->
      gs s !! k = Some Task -> taskFunc k = Panics msg ->
      run count taskFunc (sched ++ [Go k]) (Running (init rs))
      = Some (Crashed (results s) msg)
      /\ forall a, run count taskFunc (sched ++ [Go k; a]) (Running (init rs)) = None)
  /\ (faultless count taskFunc ->
      (forall sched c, run count taskFunc sched (Running (init rs)) = Some c ->
                       exists s, c = Running s)
      /\ exists s, run count taskFunc (sequential count) (Running (init rs))
                   = Some (Running s)
                   /\ mpc s = Returned
                   /\ results s = rs ++ mjoin (appended taskFunc <$> seq 0 count)).
Proof.
  split.
  - intros sched s k msg Hrun Hk Hpanic.
    assert (Hstep : step count taskFunc (Go k) s = Some (Crashed (results s) msg)).
    { simpl. unfold step_go. by rewrite Hk, Hpanic. }
    split; [| intros a]; rewrite run_app, Hrun; simpl; unfold step_go;
      by rewrite Hk, Hpanic.
  - intros Hok. split.
    + intros sched c Hrun.
      destruct (run_faultless count taskFunc rs sched _ c Hok (inv_init _ _ _) Hrun)
        as (s & -> & _).
      by exists s.
    + eexists. split; [by apply sequential_returns |]. done.
Qed.

Lemma fault_ends_the_process_witness :
  run 3 faulty (before_panic ++ [Go 1]) (Running (init []))
  = Some (Crashed [] "runtime error: invalid memory address")
  /\ exists s, run 12 twelve (sequential 12) (Running (init [])) = Some (Running s)
               /\ mpc s = Returned.
Proof.
  split.
  - destruct (fault_ends_the_process 3 faulty []) as [Hpanic _].
    destruct (Hpanic before_panic (mkState Loop 3 3 2 [Task; Task; Acquire] []) 1%nat
                     "runtime error: invalid memory address") as [H _];
      [reflexivity | reflexivity | reflexivity | exact H].
  - destruct (fault_ends_the_process 12 twelve []) as [_ Hcalm].
    destruct Hcalm as [_ (s & Hrun & Hret & _)].
    + intros k _. exists [created]. reflexivity.
    + exists s. split; [exact Hrun | exact Hret].
Defined.

(** C5: in every state a call reaches, at most ten goroutines are inside
    their task; a goroutine is admitted only while fewer than ten hold a
    slot, and with ten holders a goroutine waiting for a slot cannot move;
    [wg.Wait()] does not return while a started goroutine is unfinished,
    and once the call has returned all [count] goroutines were started and
    have finished.  No run is longer than [5 * count + 2] moves, and from
    every state reached the call can be run to its end. *)
Theorem at_most_ten_in_flight
        (count : nat) (taskFunc : nat -> effect) (sched : list actor)
        (rs : list TestResult) (s : state) :
  run count taskFunc sched (Running (init rs)) = Some (Running s) ->
  (executing s <= 10)%nat
  /\ (forall k s', gs s !! k = Some Acquire ->
                   step count taskFunc (Go k) s = Some (Running s') ->
                   (admitted s < 10)%nat /\ admitted s' = S (admitted s))
  /\ (admitted s = 10%nat ->
      forall k, gs s !! k = Some Acquire -> step count taskFunc (Go k) s = None)
  /\ (mpc s = Wait -> (0 < unfinished s)%nat -> step count taskFunc Main s = None)
  /\ (mpc s = Returned ->
      length (gs s) = count /\ Forall (fun p => p = Done) (gs s))
  /\ (length sched <= 5 * count + 2)%nat
  /\ (exists sched' c, run count taskFunc sched' (Running s) = Some c /\ over c).
Proof.
  intros Hrun.
  pose proof (inv_run count taskFunc rs sched _ s (inv_init _ _ _) Hrun) as Hinv.
  pose proof (run_bounded count taskFunc rs sched _ _ (inv_init _ _ _) Hrun) as Hlen.
  pose proof (completes count taskFunc rs s Hinv) as Hend.
  pose proof Hinv as [Hst Hnx Hlp Hwg Hsm Hcap _ Hrt].
  change NumWorkers with 10%nat in Hcap.
  repeat split.
  - pose proof (in_task_le_holds (gs s)). unfold executing.
    unfold admitted in Hsm. lia.
  - revert H0. simpl. unfold step_go. rewrite H.
    destruct (sem s <? NumWorkers)%nat eqn:Hlt; [| done].
    apply Nat.ltb_lt in Hlt. change NumWorkers with 10%nat in Hlt. lia.
  - revert H0. simpl. unfold step_go, set_pc. rewrite H.
    destruct (sem s <? NumWorkers)%nat eqn:Hlt; [| done].
    intros [= <-]. unfold admitted. simpl.
    pose proof (tally_insert holds_slot (gs s) k Acquire Task H) as Hh.
    simpl in Hh. lia.
  - intros Hfull k Hk. simpl. unfold step_go. rewrite Hk.
    rewrite Hsm, Hfull. reflexivity.
  - intros Hwait Hpos. simpl. unfold step_main. rewrite Hwait.
    destruct (wg s =? 0) eqn:Hz; [| done].
    apply Z.eqb_eq in Hz. lia.
  - by destruct (inv_returned_all count taskFunc rs s Hinv H) as (? & _).
  - by destruct (inv_returned_all count taskFunc rs s Hinv H) as (_ & ? & _).
  - unfold moves_left, init in Hlen. simpl in Hlen. unfold tally in Hlen.
    simpl in Hlen. lia.
  - exact Hend.
Qed.

Lemma at_most_ten_in_flight_witness :
  let s := mkState Loop 12 12 10 (replicate 10 Task ++ [Acquire; Acquire]) [] in
  (executing s <= 10)%nat
  /\ (forall k s', gs s !! k = Some Acquire ->
                   step 12 twelve (Go k) s = Some (Running s') ->
                   (admitted s < 10)%nat /\ admitted s' = S (admitted s))
  /\ (admitted s = 10%nat ->
      forall k, gs s !! k = Some Acquire -> step 12 twelve (Go k) s = None)
  /\ (mpc s = Wait -> (0 < unfinished s)%nat -> step 12 twelve Main s = None)
  /\ (mpc s = Returned ->
      length (gs s) = 12%nat /\ Forall (fun p => p = Done) (gs s))
  /\ (length crowd <= 5 * 12 + 2)%nat
  /\ (exists sched' c, run 12 twelve sched' (Running s) = Some c /\ over c).
Proof.
  apply (at_most_ten_in_flight 12 twelve crowd []).
  reflexivity.
Defined.

(** ** The orchestrator *)

Lemma all_records_length w : length (all_records w) = 150%nat.
Proof. unfold all_records. by rewrite !length_app, !length_fmap, !length_seq. Qed.

Lemma all_records_kinds w :
  Forall (fun r => Operation r ∈ opTypes) (all_records w).
Proof.
  unfold all_records, opTypes. rewrite !Forall_app, !Forall_fmap.
  repeat split; apply Forall_forall; intros i _; simpl; set_solver.
Qed.

Lemma matching_app kind l1 l2 :
  matching kind (l1 ++ l2) = (matching kind l1 + matching kind l2)%nat.
Proof. unfold matching. by rewrite filter_app, length_app. Qed.

Lemma matching_fmap kind (f : nat -> TestResult) l :
  matching kind (f <$> l) =
  length (filter (fun i => Operation (f i) = kind) l).
Proof.
  induction l as [| i l IH]; [done |].
  rewrite fmap_cons, matching_cons, filter_cons, IH.
  destruct (decide (Operation (f i) = kind)).
  - by rewrite bool_decide_eq_true_2.
  - by rewrite bool_decide_eq_false_2.
Qed.

Lemma matching_all_records w :
  matching "create_cart" (all_records w) = 50%nat
  /\ matching "add_items" (all_records w) = 50%nat
  /\ matching "get_cart" (all_records w) = 50%nat.
Proof.
  unfold all_records. rewrite !matching_app, !matching_fmap. by vm_compute.
Qed.

Lemma matching_perm kind l1 l2 : l1 ≡ₚ l2 -> matching kind l1 = matching kind l2.
Proof. intros H. unfold matching. by rewrite H. Qed.

(** Every run that comes to its end after a successful probe has
    collected the records of all 150 tasks, phase after phase. *)
Lemma main_collects args w o :
  (2 <= length args)%nat -> testConnectivity (health w) = true ->
  main args w = Some o ->
  how o = Exited 0
  /\ phase_lines (stdout o)
     = [PhaseStart 1; PhaseComplete 1; PhaseStart 2; PhaseComplete 2;
        PhaseStart 3; PhaseComplete 3]
  /\ collected o ≡ₚ all_records w
  /\ exists rs1 rs2 rs3,
      collected o = rs1 ++ rs2 ++ rs3
      /\ rs1 ≡ₚ record1 w <$> seq 0 50 /\ rs2 ≡ₚ record2 w <$> seq 0 50
      /\ rs3 ≡ₚ record3 w <$> seq 0 50.
Proof.
  intros Hargs Hprobe Hmain.
  destruct (main_healthy args w o Hargs Hprobe Hmain)
    as (rs1 & rs2 & rs3 & H1 & H2 & H3 & ->).
  split; [done |]. split.
  - unfold report, lines_to_phase3. cbn [stdout].
    destruct (file_created w), (TimeLimit <? duration w),
      (PrimFloat.eqb _ _); reflexivity.
  - cbn [collected report]. split.
    + unfold all_records. by rewrite H1, H2, H3.
    + by exists rs1, rs2, rs3.
Qed.

(** C3: in a run that goes through its phases, a task whose request
    fails in transport leaves a record with [Success = false] and
    [StatusCode = 0] whose response time is the time elapsed when the
    request came back; that record and the records of all other tasks of
    all phases are in the collected results. *)
Theorem transport_failure_is_recorded
        (args : list string) (w : world) (o : outcome) (p i : nat) (msg : string) :
  main args w = Some o -> how o = Exited 0 ->
  (1 <= p <= 3)%nat -> (i < 50)%nat ->
  call_reply (call_of w p i) = TransportError msg ->
  Success (record_of w p i) = false
  /\ StatusCode (record_of w p i) = 0
  /\ ResponseTime (record_of w p i) = millis (call_since (call_of w p i))
  /\ record_of w p i ∈ collected o
  /\ (forall q j, (1 <= q <= 3)%nat -> (j < 50)%nat -> record_of w q j ∈ collected o)
  /\ length (collected o) = 150%nat.
Proof.
  intros Hmain Hhow Hp Hi Hreply.
  destruct (main_exit0 args w o Hmain Hhow) as [Hargs Hprobe].
  destruct (main_collects args w o Hargs Hprobe Hmain) as (_ & _ & Hperm & _).
  assert (Hall : forall q j, (1 <= q <= 3)%nat -> (j < 50)%nat ->
                             record_of w q j ∈ collected o).
  { intros q j Hq Hj. rewrite Hperm. unfold all_records.
    assert (Hin : j ∈ seq 0 50) by (apply elem_of_seq; lia).
    rewrite !elem_of_app.
    destruct q as [| [| [| [| q]]]]; try lia; cbn [record_of].
    - left. by apply list_elem_of_fmap_2.
    - right; left. by apply list_elem_of_fmap_2.
    - right; right. by apply list_elem_of_fmap_2. }
  assert (Hfail : Success (record_of w p i) = false
                  /\ StatusCode (record_of w p i) = 0
                  /\ ResponseTime (record_of w p i) = millis (call_since (call_of w p i))).
  { destruct p as [| [| [| [| p]]]]; try lia; simpl in *;
      unfold record1, record2, record3, createCart, addItemToCart, getCart,
        success_when, status_of; simpl; by rewrite Hreply. }
  destruct Hfail as (? & ? & ?).
  repeat split; try done.
  - by apply Hall.
  - by rewrite Hperm, all_records_length.
Qed.

Lemma transport_failure_is_recorded_witness :
  exists o, main args healthy_world = Some o
            /\ Success (record_of healthy_world 1 7) = false
            /\ StatusCode (record_of healthy_world 1 7) = 0
            /\ record_of healthy_world 1 7 ∈ collected o
            /\ length (collected o) = 150%nat.
Proof.
  destruct (main args healthy_world) as [o |] eqn:Hmain; [| vm_compute in Hmain; discriminate].
  exists o. split; [reflexivity |].
  assert (Hhow : how o = Exited 0).
  { vm_compute in Hmain. injection Hmain as <-. reflexivity. }
  destruct (transport_failure_is_recorded args healthy_world o 1 7 "connection refused"
              Hmain Hhow) as (H1 & H2 & _ & H4 & _ & H6);
    [lia | lia | reflexivity |].
  repeat split; assumption.
Defined.

(** C4: when the probe fails (a transport error, or any reply other
    than status 200 without error) the run ends with exit status 1 before
    phase 1, having printed no phase line, collected no record and written
    no file; when the probe succeeds, a run that comes to its end has gone
    through phases 1, 2 and 3 in this order, each adding its records after
    those of the phase before, and ends with exit status 0; under the
    sequential schedules the run does come to its end. *)
Theorem probe_gates_the_run (args : list string) (w : world) :
  (2 <= length args)%nat ->
  (health w <> Received 200 ->
   main args w = Some (mkOutcome (Exited 1) [Header; NotAccessible] [] None)
   /\ phase_lines [Header; NotAccessible] = [])
  /\ (health w = Received 200 ->
      forall o, main args w = Some o ->
        how o = Exited 0
        /\ phase_lines (stdout o)
           = [PhaseStart 1; PhaseComplete 1; PhaseStart 2; PhaseComplete 2;
              PhaseStart 3; PhaseComplete 3]
        /\ exists rs1 rs2 rs3,
            collected o = rs1 ++ rs2 ++ rs3
            /\ rs1 ≡ₚ record1 w <$> seq 0 50 /\ rs2 ≡ₚ record2 w <$> seq 0 50
            /\ rs3 ≡ₚ record3 w <$> seq 0 50)
  /\ (health w = Received 200 ->
      sched1 w = sequential 50 -> sched2 w = sequential 50 ->
      sched3 w = sequential 50 ->
      main args w = Some (report w (lines_to_phase3 w) (all_records w))).
Proof.
  intros Hargs. split; [| split].
  - intros Hsick. split; [| done].
    assert (Hprobe : testConnectivity (health w) = false).
    { destruct (testConnectivity (health w)) eqn:H; [| done].
      by apply testConnectivity_true in H. }
    unfold main. apply Nat.ltb_ge in Hargs. by rewrite Hargs, Hprobe.
  - intros Hok o Hmain.
    apply testConnectivity_true in Hok.
    destruct (main_collects args w o Hargs Hok Hmain) as (? & ? & _ & ?).
    done.
  - intros Hok. apply testConnectivity_true in Hok. by apply main_sequential.
Qed.

Lemma probe_gates_the_run_witness :
  main args sick_world = Some (mkOutcome (Exited 1) [Header; NotAccessible] [] None)
  /\ exists o, main args healthy_world = Some o
               /\ how o = Exited 0
               /\ phase_lines (stdout o)
                  = [PhaseStart 1; PhaseComplete 1; PhaseStart 2; PhaseComplete 2;
                     PhaseStart 3; PhaseComplete 3].
Proof.
  split.
  - destruct (probe_gates_the_run args sick_world) as [Hsick _]; [simpl; lia |].
    destruct Hsick as [H _]; [discriminate | exact H].
  - destruct (main args healthy_world) as [o |] eqn:Hmain;
      [| vm_compute in Hmain; discriminate].
    exists o. split; [reflexivity |].
    destruct (probe_gates_the_run args healthy_world) as [_ [Hhealthy _]]; [simpl; lia |].
    destruct (Hhealthy eq_refl o Hmain) as (H1 & H2 & _).
    split; assumption.
Defined.

(** C8: in every run in which the three phases execute, the counts of
    the statistics mapping add up to the 150 tasks submitted, 50 under each
    kind, and the collected results are the records of these tasks, one
    per task. *)
Theorem counts_add_up_to_tasks (args : list string) (w : world) (o : outcome) :
  main args w = Some o -> how o = Exited 0 ->
  total_count (calculateStatistics (collected o)) = TotalOps
  /\ TotalOps = 150
  /\ (forall kind stat, calculateStatistics (collected o) !! kind = Some stat ->
                        Count stat = 50)
  /\ collected o ≡ₚ all_records w
  /\ (forall out, file o = Some out ->
                  Results out = collected o
                  /\ Statistics out = calculateStatistics (collected o)).
Proof.
  intros Hmain Hhow.
  destruct (main_exit0 args w o Hmain Hhow) as [Hargs Hprobe].
  destruct (main_collects args w o Hargs Hprobe Hmain) as (_ & _ & Hperm & _).
  assert (Hlen : length (collected o) = 150%nat)
    by (by rewrite Hperm, all_records_length).
  assert (Hbound : Z.of_nat (length (collected o)) <= max_int)
    by (rewrite Hlen; vm_compute; discriminate).
  assert (Hfile : forall out, file o = Some out ->
                    Results out = collected o
                    /\ Statistics out = calculateStatistics (collected o)).
  { destruct (main_healthy args w o Hargs Hprobe Hmain)
      as (rs1 & rs2 & rs3 & _ & _ & _ & ->).
    intros out. unfold report. cbn [file collected].
    destruct (file_created w); [| done]. by intros [= <-]. }
  split; [| split; [done | split; [| split; [done | exact Hfile]]]].
  - rewrite total_count_length; [by rewrite Hlen | done |].
    rewrite Hperm. apply all_records_kinds.
  - intros kind stat H. apply lookup_Some in H as [Hkind ->].
    destruct (statFor_counts kind (collected o) Hbound) as [_ ->].
    rewrite (matching_perm kind _ _ Hperm).
    destruct (matching_all_records w) as (Hc & Ha & Hg).
    unfold opTypes in Hkind.
    apply elem_of_cons in Hkind as [-> | Hkind]; [by rewrite Hc |].
    apply elem_of_cons in Hkind as [-> | Hkind]; [by rewrite Ha |].
    apply elem_of_cons in Hkind as [-> | Hkind]; [by rewrite Hg |].
    by apply elem_of_nil in Hkind.
Qed.

Lemma counts_add_up_to_tasks_witness :
  exists o, main args healthy_world = Some o
            /\ total_count (calculateStatistics (collected o)) = 150.
Proof.
  destruct (main args healthy_world) as [o |] eqn:Hmain;
    [| vm_compute in Hmain; discriminate].
  exists o. split; [reflexivity |].
  assert (Hhow : how o = Exited 0).
  { vm_compute in Hmain. injection Hmain as <-. reflexivity. }
  destruct (counts_add_up_to_tasks args healthy_world o Hmain Hhow) as (H & _).
  exact H.
Defined.

(** ** The service handler *)

(** C10, as stated, fails: no cart is stored for customer 7 and the
    write to the store fails; the handler answers 500 and no cart is
    stored afterwards. *)
Lemma failed_write_stores_nothing :
  let e := Service.mkEnv (Some 7) false false true "2025-01-01T00:00:00Z"
                         "2025-01-01T00:00:00Z" in
  let table : gmap Z Service.CartItem := ∅ in
  table !! 7 = None
  /\ Service.status (Service.reply (Service.createShoppingCart e table)) = 500
  /\ Service.carts (Service.createShoppingCart e table) !! 7 = None.
Proof. repeat split. Qed.

(** C10, amended: for a request whose body binds to a customer id and
    whose read of the store succeeds: if no cart is stored for the
    customer and the marshalling and the write succeed, the handler stores
    a new cart with an empty item list and answers 201, and when the
    marshalling or the write fails it answers 500 and the table is as it
    was; if a cart is stored, it answers 200 with the already-exists
    message, sends no write and leaves the table as it was. *)
Theorem create_cart_once (e : Service.env) (table : gmap Z Service.CartItem) (id : Z) :
  Service.bound e = Some id -> Service.get_fails e = false ->
  (table !! id = None ->
   Service.marshal_fails e = false -> Service.put_fails e = false ->
   let r := Service.createShoppingCart e table in
   Service.status (Service.reply r) = 201
   /\ Service.carts r
      = <[id := Service.mkCartItem id [] (Service.now1 e) (Service.now2 e)]> table
   /\ Service.Items <$> (Service.carts r !! id) = Some []
   /\ Service.issued r
      = [Service.GetItem id;
         Service.PutItem (Service.mkCartItem id [] (Service.now1 e) (Service.now2 e))])
  /\ (table !! id = None ->
      Service.marshal_fails e = true \/ Service.put_fails e = true ->
      let r := Service.createShoppingCart e table in
      Service.status (Service.reply r) = 500 /\ Service.carts r = table)
  /\ (is_Some (table !! id) ->
      let r := Service.createShoppingCart e table in
      Service.reply r
      = Service.mkResponse 200
          (Service.AlreadyExists "Shopping cart already exists for this customer" id id)
      /\ Service.carts r = table
      /\ Service.issued r = [Service.GetItem id]).
Proof.
  intros Hb Hg. split; [| split].
  - intros Hnone Hm Hp. cbv zeta.
    rewrite (ServiceFacts.create_fresh e table id) by done. cbn.
    repeat split. by rewrite lookup_insert_eq.
  - intros Hnone Hfail. cbv zeta. unfold Service.createShoppingCart.
    rewrite Hb, Hg, Hnone. simpl.
    destruct (Service.marshal_fails e); [done |].
    destruct Hfail as [? | ->]; done.
  - intros [cart Hcart]. cbv zeta.
    by rewrite (ServiceFacts.create_existing e table id cart).
Qed.

Lemma create_cart_once_witness :
  let e := Service.mkEnv (Some 7) false false false "2025-01-01T00:00:00Z"
                         "2025-01-01T00:00:05Z" in
  Service.status (Service.reply (Service.createShoppingCart e ∅)) = 201
  /\ Service.reply
       (Service.createShoppingCart e
          (Service.carts (Service.createShoppingCart e ∅)))
     = Service.mkResponse 200
         (Service.AlreadyExists "Shopping cart already exists for this customer" 7 7).
Proof.
  intros e. split.
  - destruct (create_cart_once e ∅ 7) as [Hfresh _]; [reflexivity | reflexivity |].
    destruct Hfresh as (H & _); [reflexivity | reflexivity | reflexivity | exact H].
  - destruct (create_cart_once e (Service.carts (Service.createShoppingCart e ∅)) 7)
      as [_ [_ Hexists]]; [reflexivity | reflexivity |].
    destruct Hexists as (H & _); [by eexists | exact H].
Defined.

(** * Further properties of the code *)

(** ** The statistics engine and the summary counters *)

Module MeasureFacts.
Import Stats StatsFacts StatsTotals Measures Driver.

Lemma successes_cons kind r results :
  successes kind (r :: results) =
  ((if bool_decide (Operation r = kind) && Success r then 1 else 0)
   + successes kind results)%nat.
Proof.
  unfold successes. rewrite filter_cons.
  destruct (decide (Operation r = kind /\ Success r = true)) as [[He Hs] | Hno].
  - rewrite bool_decide_eq_true_2, Hs by done. done.
  - destruct (decide (Operation r = kind)) as [He | Hne].
    + rewrite bool_decide_eq_true_2 by done.
      destruct (Success r); [by destruct Hno | done].
    + by rewrite bool_decide_eq_false_2.
Qed.

Lemma failures_cons kind r results :
  failures kind (r :: results) =
  ((if bool_decide (Operation r = kind) && negb (Success r) then 1 else 0)
   + failures kind results)%nat.
Proof.
  unfold failures. rewrite filter_cons.
  destruct (decide (Operation r = kind /\ Success r = false)) as [[He Hs] | Hno].
  - rewrite bool_decide_eq_true_2, Hs by done. done.
  - destruct (decide (Operation r = kind)) as [He | Hne].
    + rewrite bool_decide_eq_true_2 by done.
      destruct (Success r); [done | by destruct Hno].
    + by rewrite bool_decide_eq_false_2.
Qed.

Lemma successes_failures kind results :
  (successes kind results + failures kind results = matching kind results)%nat.
Proof.
  induction results as [| r results IH]; [done |].
  rewrite successes_cons, failures_cons, matching_cons, <- IH.
  destruct (bool_decide (Operation r = kind)), (Success r); simpl; lia.
Qed.

(** The two outcome counters of the inner loop. *)
Lemma scan_outcomes kind results stat :
  0 <= Successful stat -> 0 <= Failed stat ->
  Count stat = Successful stat + Failed stat ->
  Count stat + Z.of_nat (length results) <= max_int ->
  let stat' := fold_left (scan kind) results stat in
  Successful stat' = Successful stat + Z.of_nat (successes kind results)
  /\ Failed stat' = Failed stat + Z.of_nat (failures kind results).
Proof.
  revert stat. induction results as [| r results IH]; intros stat HS HF HC Hlen.
  - simpl. unfold successes, failures. simpl. lia.
  - simpl fold_left. cbv zeta. rewrite successes_cons, failures_cons.
    rewrite length_cons in Hlen.
    destruct (scan_step kind stat r) as (H1 & H2 & H3 & H4); try done; try lia.
    destruct (IH (scan kind stat r)) as (G1 & G2); try done.
    { destruct (bool_decide (Operation r = kind)); lia. }
    rewrite G1, G2. clear G1 G2 IH.
    assert (Hmin : min_int = - 2 ^ 63) by reflexivity.
    assert (Hmax : max_int = 2 ^ 63 - 1) by reflexivity.
    unfold scan. destruct (bool_decide (Operation r = kind)); [| simpl; lia].
    destruct (Success r); simpl; rewrite !int_add_small by lia; lia.
Qed.

Lemma statFor_outcomes kind results :
  Z.of_nat (length results) <= max_int ->
  Successful (statFor results kind) = Z.of_nat (successes kind results)
  /\ Failed (statFor results kind) = Z.of_nat (failures kind results).
Proof.
  intros Hlen. unfold statFor.
  destruct (finish_counts (fold_left (scan kind) results stat0)) as (_ & -> & ->).
  destruct (scan_outcomes kind results stat0) as (H1 & H2); simpl; try lia.
  simpl in *. lia.
Qed.

(** The minimum, the maximum and the average column of the inner loop. *)
Lemma scan_extremes kind results stat :
  let stat' := fold_left (scan kind) results stat in
  (MinResponseTime stat' = MinResponseTime stat
   \/ exists r, r ∈ results /\ Operation r = kind
                /\ MinResponseTime stat' = ResponseTime r)
  /\ (MaxResponseTime stat' = MaxResponseTime stat
      \/ exists r, r ∈ results /\ Operation r = kind
                   /\ MaxResponseTime stat' = ResponseTime r)
  /\ AvgResponseTime stat' = AvgResponseTime stat.
Proof.
  revert stat. induction results as [| r results IH]; intros stat; simpl.
  - repeat split; by left.
  - destruct (IH (scan kind stat r)) as (Hmin & Hmax & Havg). clear IH.
    assert (Hstep :
      (MinResponseTime (scan kind stat r) = MinResponseTime stat
       \/ Operation r = kind /\ MinResponseTime (scan kind stat r) = ResponseTime r)
      /\ (MaxResponseTime (scan kind stat r) = MaxResponseTime stat
          \/ Operation r = kind /\ MaxResponseTime (scan kind stat r) = ResponseTime r)
      /\ AvgResponseTime (scan kind stat r) = AvgResponseTime stat).
    { unfold scan. destruct (decide (Operation r = kind)) as [He | Hne].
      - rewrite bool_decide_eq_true_2 by done. simpl.
        destruct (PrimFloat.ltb (ResponseTime r) (MinResponseTime stat)),
          (PrimFloat.ltb (MaxResponseTime stat) (ResponseTime r)); auto.
      - rewrite bool_decide_eq_false_2 by done. auto. }
    destruct Hstep as (Smin & Smax & Savg).
    split; [| split].
    + destruct Hmin as [Hm | (r' & Hin & Hk & Hm)].
      * destruct Smin as [Sm | [Sk Sm]]; [left; congruence |].
        right. exists r. split; [left | split; [done | congruence]].
      * right. exists r'. split; [by right | done].
    + destruct Hmax as [Hm | (r' & Hin & Hk & Hm)].
      * destruct Smax as [Sm | [Sk Sm]]; [left; congruence |].
        right. exists r. split; [left | split; [done | congruence]].
      * right. exists r'. split; [by right | done].
    + congruence.
Qed.

Lemma total_successful_three results :
  total_successful (calculateStatistics results) =
    Successful (statFor results "get_cart")
    + (Successful (statFor results "add_items")
       + (Successful (statFor results "create_cart") + 0)).
Proof.
  unfold total_successful, calculateStatistics, opTypes. simpl.
  rewrite map_fold_insert_L; [| intros; lia | by simplify_map_eq].
  rewrite map_fold_insert_L; [| intros; lia | by simplify_map_eq].
  rewrite map_fold_insert_L; [| intros; lia | by simplify_map_eq].
  by rewrite map_fold_empty.
Qed.

Lemma successful_cons r results :
  successful (r :: results) =
  ((if Success r then 1 else 0) + successful results)%nat.
Proof.
  unfold successful. rewrite filter_cons.
  destruct (decide (Success r = true)) as [-> | Hno]; [done |].
  by destruct (Success r).
Qed.

Lemma successful_le results : (successful results <= length results)%nat.
Proof. unfold successful. apply length_filter. Qed.

(** [countSuccessful] counts the successful records. *)
Lemma countSuccessful_from results count :
  0 <= count -> count + Z.of_nat (length results) <= max_int ->
  fold_left (fun count result => if Success result then int_add count 1 else count)
            results count
  = count + Z.of_nat (successful results).
Proof.
  revert count. induction results as [| r results IH]; intros count Hc Hlen.
  - unfold successful. simpl. lia.
  - simpl fold_left. rewrite successful_cons. rewrite length_cons in Hlen.
    assert (Hmin : min_int = - 2 ^ 63) by reflexivity.
    assert (Hmax : max_int = 2 ^ 63 - 1) by reflexivity.
    destruct (Success r).
    + rewrite int_add_small by lia. rewrite IH by lia. lia.
    + rewrite IH by lia. lia.
Qed.

Lemma successes_partition results :
  Forall (fun r => Operation r ∈ opTypes) results ->
  (successes "create_cart" results + successes "add_items" results
   + successes "get_cart" results = successful results)%nat.
Proof.
  induction 1 as [| r results Hr _ IH]; [done |].
  rewrite !successes_cons, successful_cons, <- IH.
  unfold opTypes in Hr.
  apply elem_of_cons in Hr as [-> | Hr]; [simpl; destruct (Success r); lia |].
  apply elem_of_cons in Hr as [-> | Hr]; [simpl; destruct (Success r); lia |].
  apply elem_of_cons in Hr as [-> | Hr]; [simpl; destruct (Success r); lia |].
  by apply elem_of_nil in Hr.
Qed.

End MeasureFacts.

Import Measures MeasureFacts.

(** X1: each entry counts the records of its kind: its count is their
    number, its successful count the number of those that succeeded, its
    failed count the number of those that failed. *)
Theorem entry_counts_its_kind
        (results : list TestResult) (kind : string) (stat : OpStats) :
  Z.of_nat (length results) <= max_int ->
  calculateStatistics results !! kind = Some stat ->
  Count stat = Z.of_nat (matching kind results)
  /\ Successful stat = Z.of_nat (successes kind results)
  /\ Failed stat = Z.of_nat (failures kind results).
Proof.
  intros Hlen Hstat. apply lookup_Some in Hstat as [_ ->].
  destruct (statFor_counts kind results Hlen) as [_ HC].
  destruct (statFor_outcomes kind results Hlen) as [HS HF].
  done.
Qed.

Lemma entry_counts_its_kind_witness :
  Count (statFor Cases.mixed "create_cart") = 3
  /\ Successful (statFor Cases.mixed "create_cart") = 2
  /\ Failed (statFor Cases.mixed "create_cart") = 1.
Proof.
  apply (entry_counts_its_kind Cases.mixed "create_cart").
  - vm_compute. discriminate.
  - apply lookup_create.
Defined.

(** X2: the minimum of an entry is the seed 999999 or the response time
    of a record of its kind, its maximum is the seed 0 or the response time
    of such a record, and its average is total / count when the count is
    positive and 0 otherwise. *)
Theorem extremes_are_observed
        (results : list TestResult) (kind : string) (stat : OpStats) :
  calculateStatistics results !! kind = Some stat ->
  (MinResponseTime stat = 999999%float
   \/ exists r, r ∈ results /\ Operation r = kind
                /\ MinResponseTime stat = ResponseTime r)
  /\ (MaxResponseTime stat = 0%float
      \/ exists r, r ∈ results /\ Operation r = kind
                   /\ MaxResponseTime stat = ResponseTime r)
  /\ AvgResponseTime stat
     = (if 0 <? Count stat
        then PrimFloat.div (TotalResponseTime stat) (float64_of_int (Count stat))
        else 0%float).
Proof.
  intros Hstat. apply lookup_Some in Hstat as [_ ->].
  destruct (scan_extremes kind results stat0) as (Hmin & Hmax & Havg).
  unfold statFor, finish.
  destruct (0 <? Count (fold_left (scan kind) results stat0)) eqn:Hpos; simpl;
    rewrite ?Hpos; repeat split; done.
Qed.

Lemma extremes_are_observed_witness :
  (MinResponseTime (statFor Cases.mixed "create_cart") = 999999%float
   \/ exists r, r ∈ Cases.mixed /\ Operation r = "create_cart"
                /\ MinResponseTime (statFor Cases.mixed "create_cart") = ResponseTime r)
  /\ (MaxResponseTime (statFor Cases.mixed "create_cart") = 0%float
      \/ exists r, r ∈ Cases.mixed /\ Operation r = "create_cart"
                   /\ MaxResponseTime (statFor Cases.mixed "create_cart") = ResponseTime r)
  /\ AvgResponseTime (statFor Cases.mixed "create_cart")
     = (if 0 <? Count (statFor Cases.mixed "create_cart")
        then PrimFloat.div (TotalResponseTime (statFor Cases.mixed "create_cart"))
                           (float64_of_int (Count (statFor Cases.mixed "create_cart")))
        else 0%float).
Proof.
  apply (extremes_are_observed Cases.mixed "create_cart").
  apply lookup_create.
Defined.

(** X3: the number of successful operations the summary prints is the
    number of successful records, and, when every record is of one of the
    three kinds, the sum of the successful counts of the entries. *)
Theorem summary_successes_add_up (results : list TestResult) :
  Z.of_nat (length results) <= max_int ->
  countSuccessful results = Z.of_nat (successful results)
  /\ 0 <= countSuccessful results <= Z.of_nat (length results)
  /\ (Forall (fun r => Operation r ∈ opTypes) results ->
      countSuccessful results = total_successful (calculateStatistics results)).
Proof.
  intros Hlen.
  assert (Hcount : countSuccessful results = Z.of_nat (successful results)).
  { unfold countSuccessful. rewrite countSuccessful_from by lia. lia. }
  pose proof (successful_le results).
  split; [done | split; [lia |]].
  intros Hall. rewrite Hcount, total_successful_three.
  destruct (statFor_outcomes "create_cart" results Hlen) as [-> _].
  destruct (statFor_outcomes "add_items" results Hlen) as [-> _].
  destruct (statFor_outcomes "get_cart" results Hlen) as [-> _].
  pose proof (successes_partition results Hall). lia.
Qed.

Lemma summary_successes_add_up_witness :
  countSuccessful Cases.mixed = Z.of_nat (successful Cases.mixed)
  /\ 0 <= countSuccessful Cases.mixed <= Z.of_nat (length Cases.mixed)
  /\ (Forall (fun r => Operation r ∈ opTypes) Cases.mixed ->
      countSuccessful Cases.mixed = total_successful (calculateStatistics Cases.mixed)).
Proof.
  apply (summary_successes_add_up Cases.mixed).
  vm_compute. discriminate.
Defined.

(** X4: a record of any of the three call sites that is marked
    successful comes from a response received without error, and carries
    its status, which is 200 or 201, and 200 for a get-cart record. *)
Theorem success_means_ok_status (c : call) (customerID : Z) (r : TestResult) :
  r ∈ [createCart c customerID; addItemToCart c customerID; getCart c customerID] ->
  Success r = true ->
  call_reply c = Received (StatusCode r)
  /\ (StatusCode r = 200 \/ StatusCode r = 201)
  /\ (Operation r = "get_cart" -> StatusCode r = 200).
Proof.
  intros Hin Hok.
  rewrite !elem_of_cons, elem_of_nil in Hin. revert Hok.
  destruct Hin as [-> | [-> | [-> | []]]];
    unfold createCart, addItemToCart, getCart, success_when, status_of;
    cbn [Success StatusCode Operation];
    destruct (call_reply c) as [status | msg | status msg]; cbn [err resp];
    try done; intros Hok.
  - apply orb_true_iff in Hok. rewrite !Z.eqb_eq in Hok.
    repeat split; [done | done].
  - apply orb_true_iff in Hok. rewrite !Z.eqb_eq in Hok.
    repeat split; [done | done].
  - apply Z.eqb_eq in Hok. subst. repeat split; by left.
Qed.

Lemma success_means_ok_status_witness :
  let c := mkCall (Received 200) 2500000 "now" in
  call_reply c = Received (StatusCode (getCart c 10000))
  /\ (StatusCode (getCart c 10000) = 200 \/ StatusCode (getCart c 10000) = 201)
  /\ (Operation (getCart c 10000) = "get_cart" -> StatusCode (getCart c 10000) = 200).
Proof.
  intros c.
  apply (success_means_ok_status c 10000 (getCart c 10000)).
  - set_solver.
  - reflexivity.
Defined.

(** ** The phase runner, for any task function *)

Module BackFacts.
Import Back.

Section Any.
Variable count : nat.
Variable taskFunc : nat -> effect.

Lemma back_ok_init rs : back_ok taskFunc (init rs).
Proof. intros k p Hk. done. Qed.

Lemma back_ok_insert s k q (s' : state) :
  back_ok taskFunc s -> gs s' = <[k := q]> (gs s) ->
  (past q = true -> exists rs, taskFunc k = Appends rs) ->
  back_ok taskFunc s'.
Proof.
  intros Hok Hgs Hq j p Hj Hp. rewrite Hgs in Hj.
  destruct (decide (k = j)) as [<- | Hne].
  - apply list_lookup_insert_Some in Hj as [(_ & <- & _) | [? _]]; [| done].
    by apply Hq.
  - rewrite list_lookup_insert_ne in Hj by done. by eapply Hok.
Qed.

Lemma back_ok_step a s s' :
  back_ok taskFunc s -> step count taskFunc a s = Some (Running s') ->
  back_ok taskFunc s'.
Proof.
  intros Hok Hstep. destruct a as [| k]; simpl in Hstep.
  - unfold step_main in Hstep. destruct (mpc s).
    + destruct (next s <? count)%nat; simplify_eq.
      * intros j p Hj Hp. simpl in Hj.
        apply lookup_app_Some in Hj as [Hj | [_ Hj]]; [by eapply Hok |].
        destruct (j - length (gs s))%nat; simplify_eq/=.
      * done.
    + destruct (wg s =? 0); simplify_eq. done.
    + done.
  - unfold step_go, set_pc in Hstep.
    destruct (gs s !! k) as [p |] eqn:Hk; [| done].
    destruct p.
    + destruct (sem s <? NumWorkers)%nat; simplify_eq.
      by eapply (back_ok_insert s k Task).
    + destruct (taskFunc k) as [rs | msg] eqn:Hrs; simplify_eq.
      eapply (back_ok_insert s k Release); eauto.
    + destruct (sem s); simplify_eq.
      eapply (back_ok_insert s k Finish); [done | done |].
      intros _. by eapply Hok.
    + destruct (wg s - 1 <? 0); simplify_eq.
      eapply (back_ok_insert s k Done); [done | done |].
      intros _. by eapply Hok.
    + done.
Qed.

Lemma back_ok_run sched s s' :
  back_ok taskFunc s -> run count taskFunc sched (Running s) = Some (Running s') ->
  back_ok taskFunc s'.
Proof.
  revert s. induction sched as [| a sched IH]; intros s Hok Hrun; simpl in Hrun.
  - by simplify_eq.
  - destruct (step count taskFunc a s) as [[s1 | rs msg] |] eqn:Hstep; [| | done].
    + eapply IH; [| done]. by eapply back_ok_step.
    + by apply run_crashed in Hrun as [_ ?].
Qed.

(** A run that ends in a crash: the state before the last move. *)
Lemma run_to_crash sched s rs msg :
  run count taskFunc sched (Running s) = Some (Crashed rs msg) ->
  exists before a s', sched = before ++ [a]
    /\ run count taskFunc before (Running s) = Some (Running s')
    /\ step count taskFunc a s' = Some (Crashed rs msg).
Proof.
  revert s. induction sched as [| a sched IH]; intros s Hrun; simpl in Hrun; [done |].
  destruct (step count taskFunc a s) as [[s1 | rs1 msg1] |] eqn:Hstep; [| | done].
  - destruct (IH s1 Hrun) as (before & b & s' & -> & Hbefore & Hlast).
    exists (a :: before), b, s'. simpl. by rewrite Hstep.
  - apply run_crashed in Hrun as [-> [= -> ->]].
    by exists [], a, s.
Qed.

End Any.

End BackFacts.

Import Back BackFacts.

(** X5: whatever the task function and the schedule, a call of
    [runConcurrent] that returns has run every one of its [count] tasks to
    its return (none panicked), has kept the records it started with as
    they were, in front, and has added after them exactly the records of
    all tasks, in some order. *)
Theorem returned_call_ran_all_tasks
        (count : nat) (taskFunc : nat -> effect) (sched : list actor)
        (rs rs' : list TestResult) :
  runConcurrent count taskFunc sched rs = PhaseReturned rs' ->
  faultless count taskFunc
  /\ exists fresh, rs' = rs ++ fresh
                   /\ fresh ≡ₚ mjoin (appended taskFunc <$> seq 0 count).
Proof.
  unfold runConcurrent. intros Hret.
  destruct (run count taskFunc sched (Running (init rs))) as [[s | ? ?] |] eqn:Hrun;
    [| done | done].
  destruct (mpc s) eqn:Hpc; try done. injection Hret as <-.
  pose proof (inv_run count taskFunc rs sched _ s (inv_init _ _ _) Hrun) as Hinv.
  pose proof (back_ok_run count taskFunc sched _ s (back_ok_init _ _) Hrun) as Hback.
  destruct (inv_returned_all count taskFunc rs s Hinv Hpc) as (Hlen & Hdone & Hres).
  split; [| done].
  intros k Hk.
  destruct (lookup_lt_is_Some_2 (gs s) k) as [p Hp]; [lia |].
  apply (Hback k p Hp).
  rewrite Forall_forall in Hdone.
  rewrite (Hdone p); [done |]. by eapply list_elem_of_lookup_2.
Qed.

Lemma returned_call_ran_all_tasks_witness :
  faultless 12 twelve
  /\ exists fresh, replicate 12 created = [] ++ fresh
                   /\ fresh ≡ₚ mjoin (appended twelve <$> seq 0 12).
Proof.
  apply (returned_call_ran_all_tasks 12 twelve (sequential 12) [] (replicate 12 created)).
  reflexivity.
Defined.

(** X6: the process dies during a call of [runConcurrent] only when a
    task that has been started panics, and with the message of that panic;
    neither the semaphore nor the wait group ever brings it down.  The
    records collected up to then are kept, the records the call started
    with in front. *)
Theorem crash_only_by_task_panic
        (count : nat) (taskFunc : nat -> effect) (sched : list actor)
        (rs rs' : list TestResult) (msg : string) :
  run count taskFunc sched (Running (init rs)) = Some (Crashed rs' msg) ->
  (exists k, (k < count)%nat /\ taskFunc k = Panics msg)
  /\ exists fresh, rs' = rs ++ fresh.
Proof.
  intros Hrun.
  destruct (run_to_crash count taskFunc sched _ _ _ Hrun)
    as (before & a & s & _ & Hbefore & Hlast).
  pose proof (inv_run count taskFunc rs before _ s (inv_init _ _ _) Hbefore) as Hinv.
  destruct (inv_step count taskFunc rs a s _ Hinv Hlast)
    as (k & _ & Hk & Hpanic & ->).
  destruct Hinv as [Hst Hnx _ _ _ _ (fresh & Hres & _) _].
  split.
  - exists k. split; [| done]. apply lookup_lt_Some in Hk. lia.
  - by exists fresh.
Qed.

Lemma crash_only_by_task_panic_witness :
  (exists k, (k < 3)%nat /\ faulty k = Panics "runtime error: invalid memory address")
  /\ exists fresh : list TestResult, [] = [] ++ fresh.
Proof.
  apply (crash_only_by_task_panic 3 faulty (before_panic ++ [Go 1]) [] []).
  reflexivity.
Defined.

(** ** The orchestrator *)

(** X7: with a random base in the range of [rand.Intn(100000)], the
    fifty customer ids of a run are [base + 10000 + i], pairwise distinct
    and between 10000 and 110049, and task [i] of each of the three phases
    targets customer [i]: every cart created in phase 1 gets exactly one
    add-item and one get-cart request. *)
Theorem customers_distinct_and_paired (w : world) :
  0 <= rand_base w < 100000 ->
  customerIDs (int_add (rand_base w) 10000)
  = (fun i => rand_base w + 10000 + Z.of_nat i) <$> seq 0 50
  /\ NoDup (customerIDs (int_add (rand_base w) 10000))
  /\ forall i, (i < 50)%nat ->
       CustomerID (record1 w i) = rand_base w + 10000 + Z.of_nat i
       /\ CustomerID (record2 w i) = CustomerID (record1 w i)
       /\ CustomerID (record3 w i) = CustomerID (record1 w i)
       /\ 10000 <= CustomerID (record1 w i) <= 110049.
Proof.
  intros Hbase.
  assert (Hmin : min_int = - 2 ^ 63) by reflexivity.
  assert (Hmax : max_int = 2 ^ 63 - 1) by reflexivity.
  assert (Hids : customerIDs (int_add (rand_base w) 10000)
                 = (fun i => rand_base w + 10000 + Z.of_nat i) <$> seq 0 50).
  { unfold customerIDs. change (Z.to_nat NumCreateCart) with 50%nat.
    apply list_fmap_ext. intros k i Hi.
    apply lookup_seq in Hi as [Heq Hlt]. simpl in Heq. subst i.
    rewrite (int_add_small (rand_base w)) by lia. rewrite int_add_small by lia. done. }
  split; [done | split].
  - rewrite Hids. apply NoDup_fmap_2; [| apply NoDup_seq].
    intros i j Hij. lia.
  - intros i Hi.
    assert (Htarget : target w i = rand_base w + 10000 + Z.of_nat i).
    { unfold target. rewrite Nat.mod_small by done.
      rewrite (int_add_small (rand_base w)) by lia. rewrite int_add_small by lia. done. }
    unfold record1, record2, record3, createCart, addItemToCart, getCart.
    cbn [CustomerID]. rewrite Htarget. repeat split; lia.
Qed.

Lemma customers_distinct_and_paired_witness :
  customerIDs (int_add (rand_base healthy_world) 10000)
  = (fun i => rand_base healthy_world + 10000 + Z.of_nat i) <$> seq 0 50
  /\ NoDup (customerIDs (int_add (rand_base healthy_world) 10000))
  /\ forall i, (i < 50)%nat ->
       CustomerID (record1 healthy_world i) = rand_base healthy_world + 10000 + Z.of_nat i
       /\ CustomerID (record2 healthy_world i) = CustomerID (record1 healthy_world i)
       /\ CustomerID (record3 healthy_world i) = CustomerID (record1 healthy_world i)
       /\ 10000 <= CustomerID (record1 healthy_world i) <= 110049.
Proof.
  apply (customers_distinct_and_paired healthy_world).
  simpl. lia.
Defined.

(** X8: the harness itself never panics: whatever the service replies
    and however the goroutines are scheduled, a run ends with exit status 0
    or 1, and with 1 exactly when the URL argument is missing or the probe
    fails; in both of these cases nothing has been collected and no file
    written. *)
Theorem main_never_panics (args : list string) (w : world) (o : outcome) :
  main args w = Some o ->
  (how o = Exited 0 \/ how o = Exited 1)
  /\ (how o = Exited 1 <-> (length args < 2)%nat \/ health w <> Received 200)
  /\ (how o = Exited 1 -> collected o = [] /\ file o = None)
  /\ ((length args < 2)%nat -> stdout o = [Usage; Usage]).
Proof.
  intros Hmain.
  destruct (decide (length args < 2)%nat) as [Hfew | Hargs].
  { unfold main in Hmain. apply Nat.ltb_lt in Hfew as Hb. rewrite Hb in Hmain.
    injection Hmain as <-. simpl. repeat split; auto. }
  assert (2 <= length args)%nat as Hargs' by lia.
  destruct (testConnectivity (health w)) eqn:Hprobe.
  - destruct (main_collects args w o Hargs' Hprobe Hmain) as (Hhow & _).
    apply testConnectivity_true in Hprobe.
    rewrite Hhow. repeat split; auto; try done; try lia.
    intros [? | ?]; [lia | done].
  - assert (Hsick : health w <> Received 200).
    { intros H. apply testConnectivity_true in H. congruence. }
    unfold main in Hmain. apply Nat.ltb_ge in Hargs'. rewrite Hargs', Hprobe in Hmain.
    cbn [negb] in Hmain. injection Hmain as <-. simpl.
    repeat split; auto. lia.
Qed.

Lemma main_never_panics_witness :
  exists o, main args healthy_world = Some o
            /\ (how o = Exited 0 \/ how o = Exited 1)
            /\ (how o = Exited 1 <->
                (length args < 2)%nat \/ health healthy_world <> Received 200).
Proof.
  destruct (main args healthy_world) as [o |] eqn:Hmain;
    [| vm_compute in Hmain; discriminate].
  exists o. split; [reflexivity |].
  destruct (main_never_panics args healthy_world o Hmain) as (H1 & H2 & _).
  split; assumption.
Defined.

(** ** The store functions of the service *)

Module DynamoFacts.
Import Dynamo Carts.

Lemma wrap64_range z : min_int <= wrap64 z <= max_int.
Proof.
  unfold wrap64, min_int, max_int.
  pose proof (Z.mod_pos_bound (z + 2 ^ 63) (2 ^ 64)). lia.
Qed.

Lemma wrap64_add_l a b : wrap64 (wrap64 a + b) = wrap64 (a + b).
Proof.
  unfold wrap64. f_equal.
  replace ((a + 2 ^ 63) mod 2 ^ 64 - 2 ^ 63 + b + 2 ^ 63)
    with ((a + 2 ^ 63) mod 2 ^ 64 + b) by lia.
  rewrite Zplus_mod_idemp_l. f_equal. lia.
Qed.

Lemma int_add_assoc a b c : int_add (int_add a b) c = int_add a (int_add b c).
Proof.
  unfold int_add. rewrite wrap64_add_l.
  rewrite (Z.add_comm a (wrap64 (b + c))), wrap64_add_l. f_equal. lia.
Qed.

Lemma bump_None p q items : bump p q items = None <-> p ∉ product_ids items.
Proof.
  induction items as [| item items IH]; cbn [bump].
  - split; [intros _; apply not_elem_of_nil | done].
  - unfold product_ids in *. rewrite fmap_cons, not_elem_of_cons.
    destruct (Z.eqb_spec (Service.ID item) p) as [He | Hne].
    + split; [done | intros [? _]; congruence].
    + destruct (bump p q items); split; try done.
      * intros [_ H]. by apply IH in H.
      * intros _. split; [congruence | by apply IH].
Qed.

Lemma bump_ids p q items items' :
  bump p q items = Some items' -> product_ids items' = product_ids items.
Proof.
  revert items'. induction items as [| item items IH]; intros items'; cbn [bump];
    [done |].
  destruct (Service.ID item =? p).
  - by intros [= <-].
  - destruct (bump p q items) as [rest |]; [| done].
    intros [= <-]. unfold product_ids in *. rewrite !fmap_cons. f_equal. by apply IH.
Qed.

Lemma bump_quantity p q items items' :
  bump p q items = Some items' ->
  quantity_of p items' = int_add (quantity_of p items) q
  /\ forall p', p' <> p -> quantity_of p' items' = quantity_of p' items.
Proof.
  revert items'. induction items as [| item items IH]; intros items'; simpl; [done |].
  destruct (Z.eqb_spec (Service.ID item) p) as [He | Hne].
  - intros [= <-]. simpl. rewrite He, Z.eqb_refl. split; [done |].
    intros p' Hp'. destruct (Z.eqb_spec p p'); [congruence | done].
  - destruct (bump p q items) as [rest |]; [| done].
    intros [= <-]. destruct (IH rest eq_refl) as [IH1 IH2]. simpl.
    destruct (Z.eqb_spec (Service.ID item) p); [done |].
    split; [done |]. intros p' Hp'. rewrite IH2 by done. done.
Qed.

Lemma quantity_of_absent p items : p ∉ product_ids items -> quantity_of p items = 0.
Proof.
  induction items as [| item items IH]; cbn [quantity_of]; [done |].
  unfold product_ids in *. rewrite fmap_cons, not_elem_of_cons. intros [Hne Hrest].
  destruct (Z.eqb_spec (Service.ID item) p); [congruence | by apply IH].
Qed.

Lemma quantity_of_app p items item :
  quantity_of p (items ++ [item]) =
  if bool_decide (p ∈ product_ids items) then quantity_of p items
  else if Service.ID item =? p then Service.Quantity item else 0.
Proof.
  induction items as [| x items IH]; cbn [app quantity_of].
  - rewrite bool_decide_eq_false_2 by apply not_elem_of_nil. done.
  - unfold product_ids in *. rewrite fmap_cons.
    destruct (Z.eqb_spec (Service.ID x) p) as [He | Hne].
    + rewrite bool_decide_eq_true_2; [done | rewrite He; left].
    + rewrite IH. destruct (decide (p ∈ Service.ID <$> items)) as [Hin | Hout].
      * rewrite !bool_decide_eq_true_2; [done | by right | done].
      * rewrite !bool_decide_eq_false_2; [done | | done].
        rewrite not_elem_of_cons. split; [congruence | done].
Qed.

(** What the loop and the append of [AddToCart] do to the quantities. *)
Lemma merge_quantity product p q items :
  ID product = p -> min_int <= q <= max_int ->
  quantity_of p (merge product p q items) = int_add (quantity_of p items) q
  /\ forall p', p' <> p ->
       quantity_of p' (merge product p q items) = quantity_of p' items.
Proof.
  intros Hid Hq. unfold merge.
  destruct (bump p q items) as [items' |] eqn:Hbump.
  - by apply bump_quantity.
  - apply bump_None in Hbump. split.
    + rewrite quantity_of_app, bool_decide_eq_false_2 by done. simpl.
      rewrite Hid, Z.eqb_refl, quantity_of_absent by done.
      unfold int_add. simpl. by rewrite wrap64_small.
    + intros p' Hp'. rewrite quantity_of_app. simpl. rewrite Hid.
      destruct (decide (p' ∈ product_ids items)) as [Hin | Hout].
      * by rewrite bool_decide_eq_true_2.
      * rewrite bool_decide_eq_false_2 by done.
        destruct (Z.eqb_spec p p'); [congruence |].
        by rewrite quantity_of_absent.
Qed.

Lemma merge_ids product p q items :
  product_ids (merge product p q items) =
  if bool_decide (p ∈ product_ids items) then product_ids items
  else product_ids items ++ [ID product].
Proof.
  unfold merge. destruct (bump p q items) as [items' |] eqn:Hbump.
  - rewrite bool_decide_eq_true_2; [by eapply bump_ids |].
    destruct (decide (p ∈ product_ids items)) as [? | Hout]; [done |].
    apply (bump_None p q) in Hout. congruence.
  - apply bump_None in Hbump. rewrite bool_decide_eq_false_2 by done.
    unfold product_ids. by rewrite fmap_app.
Qed.

Lemma merge_distinct product p q items :
  ID product = p -> NoDup (product_ids items) ->
  NoDup (product_ids (merge product p q items)).
Proof.
  intros Hid Hnd. rewrite merge_ids.
  destruct (decide (p ∈ product_ids items)) as [Hin | Hout].
  - by rewrite bool_decide_eq_true_2.
  - rewrite bool_decide_eq_false_2 by done.
    apply NoDup_app. split; [done |]. split.
    + intros x Hx Hx'. apply list_elem_of_singleton in Hx'. congruence.
    + apply NoDup_singleton.
Qed.

(** Adding twice is adding the sum. *)
Lemma merge_merge product p q1 q2 items :
  ID product = p ->
  merge product p q2 (merge product p q1 items) = merge product p (int_add q1 q2) items.
Proof.
  intros Hid. unfold merge at 2 3.
  destruct (bump p q1 items) as [items1 |] eqn:H1.
  - assert (Hsum : forall items items1, bump p q1 items = Some items1 ->
              bump p q2 items1 = bump p (int_add q1 q2) items).
    { clear. induction items as [| item items IH]; intros items1; simpl; [done |].
      destruct (Z.eqb_spec (Service.ID item) p) as [He | Hne].
      - intros [= <-]. simpl. destruct (Z.eqb_spec (Service.ID item) p); [| done].
        by rewrite int_add_assoc.
      - destruct (bump p q1 items) as [rest |]; [| done].
        intros [= <-]. simpl. destruct (Z.eqb_spec (Service.ID item) p); [done |].
        by rewrite (IH rest eq_refl). }
    assert (Hsome : exists items2, bump p (int_add q1 q2) items = Some items2).
    { destruct (bump p (int_add q1 q2) items) eqn:H2; [by eexists |].
      apply bump_None in H2. apply (bump_None p q1) in H2. congruence. }
    destruct Hsome as [items2 H2]. rewrite H2.
    unfold merge. by rewrite (Hsum items items1 H1), H2.
  - assert (H2 : bump p (int_add q1 q2) items = None).
    { apply bump_None. by apply bump_None in H1. }
    rewrite H2. unfold merge.
    assert (Hlast : forall q items,
              bump p q items = None ->
              bump p q2 (items ++ [Service.mkCartProduct (ID product)
                                     (Manufacturer product) (Category product) q])
              = Some (items ++ [Service.mkCartProduct (ID product)
                                  (Manufacturer product) (Category product)
                                  (int_add q q2)])).
    { clear -Hid. intros q. induction items as [| item items IH]; simpl.
      - intros _. by rewrite Hid, Z.eqb_refl.
      - destruct (Service.ID item =? p); [done |].
        destruct (bump p q items); [done |]. intros _. by rewrite IH. }
    by rewrite (Hlast q1 items H1).
Qed.

Lemma GetProduct_Ok e products p product :
  GetProduct e products p = Ok product <->
  good_read e /\ products !! p = Some product.
Proof.
  unfold GetProduct, good_read.
  destruct (get_err e), (products !! p), (unmarshal_err e); split;
    try done; try (by intros [[? ?] ?]); try (by intros [= ->]).
  by intros [_ [= ->]].
Qed.

Lemma GetCart_Ok e carts c cart :
  GetCart e carts c = Ok cart <-> good_read e /\ carts !! c = Some cart.
Proof.
  unfold GetCart, good_read.
  destruct (get_err e), (carts !! c), (unmarshal_err e); split;
    try done; try (by intros [[? ?] ?]); try (by intros [= ->]).
  by intros [_ [= ->]].
Qed.

(** The one success path of [AddToCart]. *)
Lemma AddToCart_None e products carts c p q carts' :
  AddToCart e products carts c p q = (None, carts') <->
  good_write e
  /\ exists product cart,
       products !! p = Some product /\ carts !! c = Some cart
       /\ carts' = <[Service.CustomerID cart :=
                      Service.mkCartItem (Service.CustomerID cart)
                        (merge product p q (Service.Items cart))
                        (Service.CreatedAt cart) (now e)]> carts.
Proof.
  unfold AddToCart, good_write. split.
  - destruct (GetProduct (product_read e) products p) as [product |] eqn:Hp; [| done].
    destruct (GetCart (cart_read e) carts c) as [cart |] eqn:Hc; [| done].
    apply GetProduct_Ok in Hp as [? ?]. apply GetCart_Ok in Hc as [? ?].
    destruct (marshal_err e); [done |]. destruct (put_err e); [done |].
    intros [= <-]. split; [by split_and! |]. by exists product, cart.
  - intros ((Hpr & Hcr & Hm & Hw) & product & cart & Hp & Hc & ->).
    assert (GetProduct (product_read e) products p = Ok product) as ->
      by (by apply GetProduct_Ok).
    assert (GetCart (cart_read e) carts c = Ok cart) as ->
      by (by apply GetCart_Ok).
    by rewrite Hm, Hw.
Qed.

Lemma AddToCart_Some e products carts c p q msg carts' :
  AddToCart e products carts c p q = (Some msg, carts') -> carts' = carts.
Proof.
  unfold AddToCart.
  destruct (GetProduct (product_read e) products p); [| by intros [= _ <-]].
  destruct (GetCart (cart_read e) carts c); [| by intros [= _ <-]].
  destruct (marshal_err e); [by intros [= _ <-] |].
  destruct (put_err e); [by intros [= _ <-] | done].
Qed.

End DynamoFacts.

Import Carts DynamoFacts.

(** X9: a call of [AddToCart] that returns no error has raised the
    quantity of the product in the customer's cart by the quantity given
    (from 0 when the cart did not list the product), has set the update
    time, and has left the cart's creation time, the quantities of its
    other products and the carts of all other customers as they were. *)
Theorem add_to_cart_adds_quantity
        (e : Dynamo.write) (products : gmap Z Dynamo.ProductItem)
        (carts carts' : gmap Z Service.CartItem) (c p q : Z) :
  Dynamo.keyed_products products -> Dynamo.keyed_carts carts ->
  min_int <= q <= max_int ->
  Dynamo.AddToCart e products carts c p q = (None, carts') ->
  exists cart cart',
    carts !! c = Some cart /\ carts' !! c = Some cart'
    /\ Service.CustomerID cart' = c
    /\ Service.CreatedAt cart' = Service.CreatedAt cart
    /\ Service.UpdatedAt cart' = Dynamo.now e
    /\ Dynamo.quantity_of p (Service.Items cart')
       = int_add (Dynamo.quantity_of p (Service.Items cart)) q
    /\ (forall p', p' <> p ->
          Dynamo.quantity_of p' (Service.Items cart')
          = Dynamo.quantity_of p' (Service.Items cart))
    /\ (forall c', c' <> c -> carts' !! c' = carts !! c').
Proof.
  intros Hkp Hkc Hq Hadd.
  apply AddToCart_None in Hadd as (_ & product & cart & Hp & Hc & ->).
  pose proof (Hkp _ _ Hp) as Hid. pose proof (Hkc _ _ Hc) as Hcid.
  destruct (merge_quantity product p q (Service.Items cart) Hid Hq) as [Hsame Hother].
  rewrite Hcid. eexists cart, _.
  split; [done |]. split; [by rewrite lookup_insert_eq |]. simpl.
  split_and!; try done.
  intros c' Hc'. by rewrite lookup_insert_ne.
Qed.

Lemma add_to_cart_adds_quantity_witness :
  exists cart cart',
    one_cart !! 7 = Some cart
    /\ snd (Dynamo.AddToCart (quiet_write "2025-01-02T00:00:00Z") shelf one_cart 7 5 3)
       !! 7 = Some cart'
    /\ Dynamo.quantity_of 5 (Service.Items cart') = 5.
Proof.
  destruct (add_to_cart_adds_quantity (quiet_write "2025-01-02T00:00:00Z") shelf one_cart
              (snd (Dynamo.AddToCart (quiet_write "2025-01-02T00:00:00Z")
                      shelf one_cart 7 5 3)) 7 5 3)
    as (cart & cart' & H1 & H2 & _ & _ & _ & H6 & _).
  - intros k product Hk. unfold shelf in Hk.
    apply lookup_insert_Some in Hk as [[<- <-] | [_ Hk]]; [reflexivity |].
    apply lookup_insert_Some in Hk as [[<- <-] | [_ Hk]]; [reflexivity |].
    by rewrite lookup_empty in Hk.
  - intros k cart Hk. unfold one_cart in Hk.
    apply lookup_insert_Some in Hk as [[<- <-] | [_ Hk]]; [reflexivity |].
    by rewrite lookup_empty in Hk.
  - vm_compute. split; discriminate.
  - reflexivity.
  - exists cart, cart'. split; [exact H1 |]. split; [exact H2 |].
    rewrite H6. unfold one_cart in H1. rewrite lookup_insert_eq in H1.
    injection H1 as <-. reflexivity.
Defined.

(** X10: [AddToCart] returns no error exactly when the product is in the
    products table, the customer has a cart, and none of its reads, the
    marshalling and the write fails; in every other case, and so for a
    customer without a cart, it returns an error and leaves the carts table
    as it was: it never creates a cart. *)
Theorem add_to_cart_fails_cleanly
        (e : Dynamo.write) (products : gmap Z Dynamo.ProductItem)
        (carts : gmap Z Service.CartItem) (c p q : Z) :
  (fst (Dynamo.AddToCart e products carts c p q) = None
   <-> good_write e /\ is_Some (products !! p) /\ is_Some (carts !! c))
  /\ (fst (Dynamo.AddToCart e products carts c p q) <> None ->
      snd (Dynamo.AddToCart e products carts c p q) = carts)
  /\ (carts !! c = None ->
      fst (Dynamo.AddToCart e products carts c p q) <> None
      /\ snd (Dynamo.AddToCart e products carts c p q) !! c = None).
Proof.
  destruct (Dynamo.AddToCart e products carts c p q) as [[msg |] carts'] eqn:Hadd; simpl.
  - apply AddToCart_Some in Hadd as Hsame. subst carts'.
    split; [| by split].
    split; [done |]. intros (Hgood & [product Hp] & [cart Hc]).
    assert (Dynamo.AddToCart e products carts c p q
            = (None, <[Service.CustomerID cart :=
                         Service.mkCartItem (Service.CustomerID cart)
                           (Dynamo.merge product p q (Service.Items cart))
                           (Service.CreatedAt cart) (Dynamo.now e)]> carts)) as Hnone.
    { apply AddToCart_None. split; [done |]. by exists product, cart. }
    congruence.
  - apply AddToCart_None in Hadd as (Hgood & product & cart & Hp & Hc & ->).
    split; [| split].
    + split; [| done]. intros _. split; [done |]. split; by eexists.
    + done.
    + intros Hnone. congruence.
Qed.

(** X11: both writers of the carts table keep it well formed: after
    [createShoppingCart] and after [AddToCart], whatever they return, every
    cart is stored under its own customer id and no cart lists a product
    twice, if that was so before. *)
Theorem writers_keep_carts_well_formed
        (e : Dynamo.write) (s : Service.env) (products : gmap Z Dynamo.ProductItem)
        (carts : gmap Z Service.CartItem) (c p q : Z) :
  Dynamo.keyed_products products ->
  Dynamo.keyed_carts carts -> distinct_carts carts ->
  (Dynamo.keyed_carts (snd (Dynamo.AddToCart e products carts c p q))
   /\ distinct_carts (snd (Dynamo.AddToCart e products carts c p q)))
  /\ (Dynamo.keyed_carts (Service.carts (Service.createShoppingCart s carts))
      /\ distinct_carts (Service.carts (Service.createShoppingCart s carts))).
Proof.
  intros Hkp Hkc Hnd. split.
  - destruct (Dynamo.AddToCart e products carts c p q) as [[msg |] carts'] eqn:Hadd; simpl.
    { apply AddToCart_Some in Hadd. by subst. }
    apply AddToCart_None in Hadd as (_ & product & cart & Hp & Hc & ->).
    split.
    + intros k cart' Hk.
      apply lookup_insert_Some in Hk as [[<- <-] | [_ Hk]]; [done | by eapply Hkc].
    + intros k cart' Hk.
      apply lookup_insert_Some in Hk as [[<- <-] | [_ Hk]]; [| by eapply Hnd].
      simpl. apply merge_distinct; [by eapply Hkp | by eapply Hnd].
  - unfold Service.createShoppingCart.
    destruct (Service.bound s) as [id |]; [| done].
    destruct (negb (Service.get_fails s) && bool_decide (is_Some (carts !! id)));
      [done |].
    destruct (Service.marshal_fails s); [done |].
    destruct (Service.put_fails s); [done |]. simpl. split.
    + intros k cart' Hk.
      apply lookup_insert_Some in Hk as [[<- <-] | [_ Hk]]; [done | by eapply Hkc].
    + intros k cart' Hk.
      apply lookup_insert_Some in Hk as [[<- <-] | [_ Hk]]; [| by eapply Hnd].
      simpl. apply NoDup_nil_2.
Qed.

Lemma writers_keep_carts_well_formed_witness :
  Dynamo.keyed_carts
    (snd (Dynamo.AddToCart (quiet_write "2025-01-02T00:00:00Z") shelf one_cart 7 6 1))
  /\ distinct_carts
       (snd (Dynamo.AddToCart (quiet_write "2025-01-02T00:00:00Z") shelf one_cart 7 6 1)).
Proof.
  apply (writers_keep_carts_well_formed (quiet_write "2025-01-02T00:00:00Z")
           (Service.mkEnv (Some 8) false false false "a" "b") shelf one_cart 7 6 1).
  - intros k product Hk. unfold shelf in Hk.
    apply lookup_insert_Some in Hk as [[<- <-] | [_ Hk]]; [reflexivity |].
    apply lookup_insert_Some in Hk as [[<- <-] | [_ Hk]]; [reflexivity |].
    by rewrite lookup_empty in Hk.
  - intros k cart Hk. unfold one_cart in Hk.
    apply lookup_insert_Some in Hk as [[<- <-] | [_ Hk]]; [reflexivity |].
    by rewrite lookup_empty in Hk.
  - intros k cart Hk. unfold one_cart in Hk.
    apply lookup_insert_Some in Hk as [[<- <-] | [_ Hk]].
    + simpl. apply NoDup_singleton.
    + by rewrite lookup_empty in Hk.
Defined.

(** X12: adding a product to a cart twice, with quantities [q1] and then
    [q2], leaves the carts table as one call with [q1 + q2] (as a Go [int])
    at the time of the second call does. *)
Theorem add_to_cart_twice
        (e1 e2 : Dynamo.write) (products : gmap Z Dynamo.ProductItem)
        (carts carts1 carts2 : gmap Z Service.CartItem) (c p q1 q2 : Z) :
  Dynamo.keyed_products products -> Dynamo.keyed_carts carts ->
  Dynamo.AddToCart e1 products carts c p q1 = (None, carts1) ->
  Dynamo.AddToCart e2 products carts1 c p q2 = (None, carts2) ->
  Dynamo.AddToCart e2 products carts c p (int_add q1 q2) = (None, carts2).
Proof.
  intros Hkp Hkc H1 H2.
  apply AddToCart_None in H1 as (_ & product & cart & Hp & Hc & ->).
  pose proof (Hkc _ _ Hc) as Hcid. rewrite Hcid in H2.
  apply AddToCart_None in H2 as (Hgood & product2 & cart2 & Hp2 & Hc2 & ->).
  rewrite lookup_insert_eq in Hc2. injection Hc2 as <-. simpl.
  assert (product2 = product) as -> by congruence.
  apply AddToCart_None. split; [done |]. exists product, cart.
  split; [done |]. split; [done |].
  rewrite Hcid, insert_insert_eq.
  by rewrite merge_merge by (by eapply Hkp).
Qed.

Lemma add_to_cart_twice_witness :
  Dynamo.AddToCart (quiet_write "2025-01-03T00:00:00Z") shelf one_cart 7 6 (int_add 1 4)
  = (None,
     snd (Dynamo.AddToCart (quiet_write "2025-01-03T00:00:00Z") shelf
            (snd (Dynamo.AddToCart (quiet_write "2025-01-02T00:00:00Z")
                    shelf one_cart 7 6 1)) 7 6 4)).
Proof.
  apply (add_to_cart_twice (quiet_write "2025-01-02T00:00:00Z")
           (quiet_write "2025-01-03T00:00:00Z") shelf one_cart
           (snd (Dynamo.AddToCart (quiet_write "2025-01-02T00:00:00Z")
                   shelf one_cart 7 6 1))).
  - intros k product Hk. unfold shelf in Hk.
    apply lookup_insert_Some in Hk as [[<- <-] | [_ Hk]]; [reflexivity |].
    apply lookup_insert_Some in Hk as [[<- <-] | [_ Hk]]; [reflexivity |].
    by rewrite lookup_empty in Hk.
  - intros k cart Hk. unfold one_cart in Hk.
    apply lookup_insert_Some in Hk as [[<- <-] | [_ Hk]]; [reflexivity |].
    by rewrite lookup_empty in Hk.
  - reflexivity.
  - reflexivity.
Defined.

(** ** The cart handlers of the service *)

Module ApiFacts.
Import Dynamo Carts DynamoFacts.

Lemma response_items_lookup cart i :
  Api.response_items cart !! i =
  (fun item =>
     Api.mkCartItemResponse (int_add (Z.of_nat i) 1) (Service.ID item)
       (Service.Manufacturer item) (Service.Category item) (Service.Quantity item)
       (Service.CreatedAt cart) (Service.UpdatedAt cart))
    <$> Service.Items cart !! i.
Proof. unfold Api.response_items. by rewrite list_lookup_imap. Qed.

(** The first item with a product id carries the quantity of the product. *)
Lemma first_listed p items :
  p ∈ product_ids items ->
  exists i item, items !! i = Some item /\ Service.ID item = p
                 /\ Service.Quantity item = quantity_of p items.
Proof.
  induction items as [| x items IH]; unfold product_ids; [by intros ?%elem_of_nil |].
  rewrite fmap_cons. cbn [quantity_of].
  destruct (Z.eqb_spec (Service.ID x) p) as [He | Hne].
  - intros _. by exists 0%nat, x.
  - intros [? | Hin]%elem_of_cons; [congruence |].
    destruct (IH Hin) as (i & item & Hi & Hid & Hq).
    by exists (S i), item.
Qed.

Lemma added_item_found product p cart i items :
  p ∈ product_ids items ->
  Api.ProductID (Api.added_item product p cart i items) = p
  /\ Api.Quantity (Api.added_item product p cart i items) = quantity_of p items
  /\ Api.Manufacturer (Api.added_item product p cart i items) = Manufacturer product
  /\ Api.Category (Api.added_item product p cart i items) = Category product.
Proof.
  revert i. induction items as [| x items IH]; intros i; unfold product_ids;
    [by intros ?%elem_of_nil |].
  rewrite fmap_cons. cbn [quantity_of Api.added_item].
  destruct (Z.eqb_spec (Service.ID x) p) as [He | Hne].
  - intros _. done.
  - intros [? | Hin]%elem_of_cons; [congruence |]. by apply IH.
Qed.

Lemma merge_lists product p q items :
  ID product = p -> p ∈ product_ids (merge product p q items).
Proof.
  intros Hid. rewrite merge_ids.
  destruct (decide (p ∈ product_ids items)) as [Hin | Hout].
  - by rewrite bool_decide_eq_true_2.
  - rewrite bool_decide_eq_false_2 by done. rewrite elem_of_app. right.
    rewrite Hid. apply list_elem_of_singleton. done.
Qed.

(** The paths of the handler [addItemToCart] that do not answer 200. *)
Lemma addItemToCart_status customerID bound e products carts :
  let r := Api.addItemToCart customerID bound e products carts in
  (Api.status (fst r) = 200
   /\ exists c p q product,
        customerID = Some c /\ bound = Some (p, q)
        /\ GetProduct (Api.first_read e) products p = Ok product
        /\ AddToCart (Api.add e) products carts c p q = (None, snd r))
  \/ ((Api.status (fst r) = 400 \/ Api.status (fst r) = 500) /\ snd r = carts).
Proof.
  unfold Api.addItemToCart.
  destruct customerID as [c |]; [| right; by split; [left |]].
  destruct bound as [[p q] |]; [| right; by split; [left |]].
  destruct (GetProduct (Api.first_read e) products p) as [product |] eqn:Hp;
    [| right; by split; [left |]].
  destruct (AddToCart (Api.add e) products carts c p q) as [[msg |] carts'] eqn:Hadd.
  - right. apply AddToCart_Some in Hadd. by split; [right |].
  - left. destruct (GetCart (Api.last_read e) carts' c); simpl;
      (split; [done |]; by exists c, p, q, product).
Qed.

End ApiFacts.

Import ApiFacts.

(** X13: [getShoppingCart] answers 200 exactly when the customer has a
    cart and the read meets no error, and answers 500 for a customer
    without a cart; the 200 reply names the customer and lists the items of
    the cart one for one, in order, numbered from 1, with their product ids
    and quantities. *)
Theorem get_cart_reply
        (e : Dynamo.read) (carts : gmap Z Service.CartItem) (c : Z) :
  (Api.status (Api.getShoppingCart (Some c) e carts) = 200
   <-> good_read e /\ is_Some (carts !! c))
  /\ (carts !! c = None -> Api.status (Api.getShoppingCart (Some c) e carts) = 500)
  /\ (forall cart,
        good_read e -> carts !! c = Some cart ->
        exists listed,
          Api.getShoppingCart (Some c) e carts
          = Api.mkResponse 200
              (Api.CartBody (Api.mkShoppingCartResponse c (Service.CustomerID cart) listed
                               (Service.CreatedAt cart) (Service.UpdatedAt cart)))
          /\ length listed = length (Service.Items cart)
          /\ forall i item, Service.Items cart !! i = Some item ->
               exists entry, listed !! i = Some entry
                 /\ Api.ID entry = int_add (Z.of_nat i) 1
                 /\ Api.ProductID entry = Service.ID item
                 /\ Api.Quantity entry = Service.Quantity item).
Proof.
  unfold Api.getShoppingCart. split; [| split].
  - destruct (Dynamo.GetCart e carts c) as [cart | msg] eqn:Hc; simpl.
    + apply GetCart_Ok in Hc as [? ?]. split; [| done]. intros _. split; [done | by eexists].
    + split; [done |]. intros [Hgood [cart Hcart]].
      assert (Dynamo.GetCart e carts c = Dynamo.Ok cart) by (by apply GetCart_Ok).
      congruence.
  - intros Hnone. destruct (Dynamo.GetCart e carts c) as [cart | msg] eqn:Hc; [| done].
    apply GetCart_Ok in Hc as [_ ?]. congruence.
  - intros cart Hgood Hcart.
    assert (Dynamo.GetCart e carts c = Dynamo.Ok cart) as -> by (by apply GetCart_Ok).
    exists (Api.response_items cart). split; [done |]. split.
    + unfold Api.response_items. by rewrite length_imap.
    + intros i item Hi. rewrite response_items_lookup, Hi. simpl. by eexists.
Qed.

(** X14: a cart that [createShoppingCart] has answered with 201 reads
    back through [getShoppingCart]: the reply is 200, names the customer
    and lists no item, with the two times of the creation. *)
Theorem created_cart_reads_back
        (s : Service.env) (e : Dynamo.read) (table : gmap Z Service.CartItem) (id : Z) :
  Service.bound s = Some id ->
  Service.status (Service.reply (Service.createShoppingCart s table)) = 201 ->
  good_read e ->
  Api.getShoppingCart (Some id) e (Service.carts (Service.createShoppingCart s table))
  = Api.mkResponse 200
      (Api.CartBody (Api.mkShoppingCartResponse id id [] (Service.now1 s) (Service.now2 s))).
Proof.
  intros Hb Hcreated Hgood. revert Hcreated.
  unfold Service.createShoppingCart. rewrite Hb.
  destruct (negb (Service.get_fails s) && bool_decide (is_Some (table !! id)));
    [done |].
  destruct (Service.marshal_fails s); [done |].
  destruct (Service.put_fails s); [done |]. intros _. simpl.
  unfold Api.getShoppingCart.
  assert (Dynamo.GetCart e
            (<[id := Service.mkCartItem id [] (Service.now1 s) (Service.now2 s)]> table) id
          = Dynamo.Ok (Service.mkCartItem id [] (Service.now1 s) (Service.now2 s))) as ->.
  { apply GetCart_Ok. split; [done |]. by rewrite lookup_insert_eq. }
  done.
Qed.

Lemma created_cart_reads_back_witness :
  let s := Service.mkEnv (Some 7) false false false "2025-01-01T00:00:00Z"
                         "2025-01-01T00:00:05Z" in
  Api.getShoppingCart (Some 7) quiet_read (Service.carts (Service.createShoppingCart s ∅))
  = Api.mkResponse 200
      (Api.CartBody (Api.mkShoppingCartResponse 7 7 [] "2025-01-01T00:00:00Z"
                                                "2025-01-01T00:00:05Z")).
Proof.
  intros s.
  apply (created_cart_reads_back s quiet_read ∅ 7); [reflexivity | reflexivity |].
  split; reflexivity.
Defined.

(** X15: the handler [addItemToCart] answers 200, 400 or 500, and when it
    does not answer 200 the carts table is as it was.  With a product that
    is not stored it answers 400; with a stored product and a customer that
    has no cart it answers 500: it never creates a cart. *)
Theorem add_item_rejections
        (customerID : option Z) (bound : option (Z * Z)) (e : Api.adding)
        (products : gmap Z Dynamo.ProductItem) (carts : gmap Z Service.CartItem) :
  let r := Api.addItemToCart customerID bound e products carts in
  (Api.status (fst r) = 200 \/ Api.status (fst r) = 400 \/ Api.status (fst r) = 500)
  /\ (Api.status (fst r) <> 200 -> snd r = carts)
  /\ (forall c p q, customerID = Some c -> bound = Some (p, q) ->
        products !! p = None -> Api.status (fst r) = 400)
  /\ (forall c p q, customerID = Some c -> bound = Some (p, q) ->
        good_read (Api.first_read e) -> is_Some (products !! p) ->
        carts !! c = None -> Api.status (fst r) = 500 /\ snd r !! c = None).
Proof.
  intros r. subst r.
  pose proof (addItemToCart_status customerID bound e products carts) as Hst.
  cbv zeta in Hst. split; [| split; [| split]].
  - destruct Hst as [[? _] | [[? | ?] _]]; auto.
  - intros Hne. destruct Hst as [[? _] | [_ ?]]; [done | done].
  - intros c p q -> -> Hp. unfold Api.addItemToCart.
    destruct (Dynamo.GetProduct (Api.first_read e) products p) as [product |] eqn:Hg;
      [| done].
    apply GetProduct_Ok in Hg as [_ ?]. congruence.
  - intros c p q -> -> Hgood [product Hp] Hc. unfold Api.addItemToCart.
    assert (Dynamo.GetProduct (Api.first_read e) products p = Dynamo.Ok product) as ->
      by (by apply GetProduct_Ok).
    destruct (Dynamo.AddToCart (Api.add e) products carts c p q)
      as [[msg |] carts'] eqn:Hadd.
    + apply AddToCart_Some in Hadd. by subst.
    + apply AddToCart_None in Hadd as (_ & _ & cart & _ & ? & _). congruence.
Qed.

(** X16: when the handler [addItemToCart] answers 200, the customer's
    cart lists the product with its former quantity (0 if it was not
    listed) plus the quantity of the request, a following
    [getShoppingCart] shows the product with that quantity, and, unless
    the read after the write failed, so does the item in the reply. *)
Theorem add_item_shows_new_quantity
        (c p q : Z) (e : Api.adding) (g : Dynamo.read)
        (products : gmap Z Dynamo.ProductItem) (carts : gmap Z Service.CartItem) :
  Dynamo.keyed_products products -> Dynamo.keyed_carts carts ->
  min_int <= q <= max_int ->
  Api.status (fst (Api.addItemToCart (Some c) (Some (p, q)) e products carts)) = 200 ->
  exists cart cart' total,
    carts !! c = Some cart
    /\ snd (Api.addItemToCart (Some c) (Some (p, q)) e products carts) !! c = Some cart'
    /\ total = int_add (Dynamo.quantity_of p (Service.Items cart)) q
    /\ Dynamo.quantity_of p (Service.Items cart') = total
    /\ (good_read g ->
        exists listed entry,
          Api.payload (Api.getShoppingCart (Some c) g
                         (snd (Api.addItemToCart (Some c) (Some (p, q)) e products carts)))
          = Api.CartBody (Api.mkShoppingCartResponse c c listed
                            (Service.CreatedAt cart) (Dynamo.now (Api.add e)))
          /\ entry ∈ listed /\ Api.ProductID entry = p /\ Api.Quantity entry = total)
    /\ (good_read (Api.last_read e) ->
        exists entry,
          Api.payload (fst (Api.addItemToCart (Some c) (Some (p, q)) e products carts))
          = Api.AddedItemBody "Item added to cart successfully" entry
          /\ Api.ProductID entry = p /\ Api.Quantity entry = total).
Proof.
  intros Hkp Hkc Hq Hok.
  pose proof (addItemToCart_status (Some c) (Some (p, q)) e products carts) as Hst.
  cbv zeta in Hst.
  destruct Hst as [(_ & c0 & p0 & q0 & product0 & [= <-] & [= <- <-] & Hfirst & Hadd)
                  | [[H | H] _]]; [| congruence | congruence].
  apply AddToCart_None in Hadd as Hpath.
  destruct Hpath as (_ & product & cart & Hp & Hc & Hcarts').
  pose proof (Hkp _ _ Hp) as Hid. pose proof (Hkc _ _ Hc) as Hcid.
  rewrite Hcid in Hcarts'.
  destruct (merge_quantity product p q (Service.Items cart) Hid Hq) as [Hsame _].
  set (cart' := Service.mkCartItem c (Dynamo.merge product p q (Service.Items cart))
                  (Service.CreatedAt cart) (Dynamo.now (Api.add e))) in *.
  assert (Hlook : snd (Api.addItemToCart (Some c) (Some (p, q)) e products carts) !! c
                  = Some cart').
  { rewrite Hcarts'. by rewrite lookup_insert_eq. }
  assert (Hlisted : p ∈ Dynamo.product_ids (Service.Items cart'))
    by (by apply merge_lists).
  exists cart, cart', (int_add (Dynamo.quantity_of p (Service.Items cart)) q).
  split; [done |]. split; [done |]. split; [done |]. split; [done |]. split.
  - intros Hg. unfold Api.getShoppingCart.
    assert (Dynamo.GetCart g
              (snd (Api.addItemToCart (Some c) (Some (p, q)) e products carts)) c
            = Dynamo.Ok cart') as -> by (by apply GetCart_Ok).
    destruct (first_listed p _ Hlisted) as (i & item & Hi & Hitem & Hquant).
    eexists (Api.response_items cart'), _. simpl. split; [done |]. split.
    + eapply list_elem_of_lookup_2. rewrite response_items_lookup, Hi. done.
    + simpl. split; [done |]. by rewrite Hquant.
  - intros Hg. revert Hlook. unfold Api.addItemToCart. rewrite Hfirst, Hadd.
    intros Hlook. simpl in Hlook.
    assert (Dynamo.GetCart (Api.last_read e)
              (snd (Api.addItemToCart (Some c) (Some (p, q)) e products carts)) c
            = Dynamo.Ok cart') as -> by (apply GetCart_Ok; split; [done | ];
                                         rewrite Hcarts'; by rewrite lookup_insert_eq).
    eexists. simpl. split; [done |].
    destruct (added_item_found product0 p cart' 0 (Service.Items cart') Hlisted)
      as (H1 & H2 & _).
    simpl in H1, H2. split; [exact H1 |]. rewrite H2. exact Hsame.
Qed.

Lemma add_item_shows_new_quantity_witness :
  exists cart' ,
    snd (Api.addItemToCart (Some 7) (Some (5, 3))
           (Api.mkAdding quiet_read (quiet_write "2025-01-02T00:00:00Z") quiet_read)
           shelf one_cart) !! 7 = Some cart'
    /\ Dynamo.quantity_of 5 (Service.Items cart') = 5.
Proof.
  destruct (add_item_shows_new_quantity 7 5 3
              (Api.mkAdding quiet_read (quiet_write "2025-01-02T00:00:00Z") quiet_read)
              quiet_read shelf one_cart)
    as (cart & cart' & total & H1 & H2 & H3 & H4 & _).
  - intros k product Hk. unfold shelf in Hk.
    apply lookup_insert_Some in Hk as [[<- <-] | [_ Hk]]; [reflexivity |].
    apply lookup_insert_Some in Hk as [[<- <-] | [_ Hk]]; [reflexivity |].
    by rewrite lookup_empty in Hk.
  - intros k cart Hk. unfold one_cart in Hk.
    apply lookup_insert_Some in Hk as [[<- <-] | [_ Hk]]; [reflexivity |].
    by rewrite lookup_empty in Hk.
  - vm_compute. split; discriminate.
  - reflexivity.
  - exists cart'. split; [exact H2 |]. rewrite H4, H3.
    unfold one_cart in H1. rewrite lookup_insert_eq in H1. injection H1 as <-.
    reflexivity.
Defined.

(** ** The product handlers of the service *)

Module ProductFacts.

Lemma fill_Some draw min max i todo :
  min <= max -> min_int <= min -> max <= max_int -> max - min < max_int ->
  (forall j k, 0 < k -> 0 <= draw j k < k) ->
  exists ids, Api.fill draw min max i todo = Some ids
              /\ length ids = todo /\ Forall (fun id => min <= id <= max) ids.
Proof.
  intros Hle Hlo Hhi Hspan Hdraw.
  assert (Hmin : min_int = - 2 ^ 63) by reflexivity.
  assert (Hmax : max_int = 2 ^ 63 - 1) by reflexivity.
  assert (Hk : int_add (int_add max (- min)) 1 = max - min + 1).
  { rewrite (int_add_small max) by lia. rewrite int_add_small by lia. lia. }
  revert i. induction todo as [| todo IH]; intros i; cbn [Api.fill].
  - by exists [].
  - rewrite Hk. destruct (Z.leb_spec (max - min + 1) 0) as [? | Hpos]; [lia |].
    destruct (IH (S i)) as (ids & -> & Hlen & Hall).
    eexists. split; [done |]. split; [simpl; by rewrite Hlen |].
    constructor; [| done].
    pose proof (Hdraw i (max - min + 1) Hpos).
    rewrite int_add_small by lia. lia.
Qed.

Section SearchFacts.
Variable ToLower : string -> string.
Variable Contains : string -> string -> bool.
Variable syncProducts : gmap Z Seed.Item.
Variable queryLower : string.

Local Abbreviation kept := (Carts.kept ToLower Contains syncProducts queryLower).

Lemma kept_weaken ids id t :
  Forall (fun item =>
            Api.matches ToLower Contains queryLower item = true
            /\ exists id, id ∈ ids /\ syncProducts !! id = Some item)
         (Api.matchingProducts t) ->
  Forall (fun item =>
            Api.matches ToLower Contains queryLower item = true
            /\ exists id', id' ∈ ids ++ [id] /\ syncProducts !! id' = Some item)
         (Api.matchingProducts t).
Proof.
  intros Hall. eapply Forall_impl; [exact Hall |]. intros item [Hm (id' & Hin & Hs)].
  split; [done |]. exists id'. split; [| done]. rewrite elem_of_app. by left.
Qed.

Lemma look_kept ids id start t :
  start + Z.of_nat (length ids) < max_int -> 0 <= start ->
  kept ids start t ->
  kept (ids ++ [id]) start (Api.look ToLower Contains syncProducts queryLower t id).
Proof.
  intros Hbound Hstart (Hsearched & Hfound & Hlen & Hall).
  assert (Hmin : min_int = - 2 ^ 63) by reflexivity.
  assert (Hmax : max_int = 2 ^ 63 - 1) by reflexivity.
  pose proof (kept_weaken ids id t Hall) as Hall'.
  unfold Carts.kept, Api.look. rewrite length_app. simpl length.
  destruct (syncProducts !! id) as [item |] eqn:Hid.
  - destruct (Api.matches ToLower Contains queryLower item) eqn:Hm.
    + destruct (length (Api.matchingProducts t) <? 20)%nat eqn:Hroom; simpl;
        rewrite !int_add_small by lia.
      * apply Nat.ltb_lt in Hroom. split_and!; try lia.
        -- rewrite length_app. simpl. lia.
        -- apply Forall_app. split; [done |]. constructor; [| done].
           split; [done |]. exists id. split; [| done].
           rewrite elem_of_app. right. by apply list_elem_of_singleton.
      * apply Nat.ltb_ge in Hroom. split_and!; try lia. done.
    + simpl. rewrite !int_add_small by lia. split_and!; try lia. done.
  - simpl. rewrite !int_add_small by lia. split_and!; try lia. done.
Qed.

Lemma search_loop_kept ids seen t :
  Z.of_nat (length seen) + Z.of_nat (length ids) < max_int ->
  kept seen 0 t ->
  kept (seen ++ ids) 0
       (fold_left (Api.look ToLower Contains syncProducts queryLower) ids t).
Proof.
  revert seen t. induction ids as [| id ids IH]; intros seen t Hbound Hkept.
  - by rewrite app_nil_r.
  - simpl fold_left. rewrite (cons_middle id seen ids), (assoc_L (++)).
    rewrite length_cons in Hbound.
    apply IH.
    + rewrite length_app. simpl. lia.
    + apply look_kept; [lia | lia | done].
Qed.

End SearchFacts.

End ProductFacts.

Import ProductFacts.

(** X17: [generateRandomIDs] panics for a negative [n], and for a
    positive [n] when [max < min]; for [n >= 0] and [min <= max] (in the
    range of a Go [int]) it returns [n] ids, each between [min] and [max]
    inclusive. *)
Theorem random_ids_within_bounds (draw : nat -> Z -> Z) (n min max : Z) :
  (n < 0 -> Api.generateRandomIDs draw n min max = None)
  /\ (0 < n -> max < min -> min_int <= min -> max <= max_int -> min - max < max_int ->
      Api.generateRandomIDs draw n min max = None)
  /\ (0 <= n -> min <= max -> min_int <= min -> max <= max_int -> max - min < max_int ->
      (forall j k, 0 < k -> 0 <= draw j k < k) ->
      exists ids, Api.generateRandomIDs draw n min max = Some ids
                  /\ length ids = Z.to_nat n
                  /\ Forall (fun id => min <= id <= max) ids).
Proof.
  assert (Hmin : min_int = - 2 ^ 63) by reflexivity.
  assert (Hmax : max_int = 2 ^ 63 - 1) by reflexivity.
  unfold Api.generateRandomIDs. split; [| split].
  - intros Hn. apply Z.ltb_lt in Hn. by rewrite Hn.
  - intros Hn Hlt Hlo Hhi Hspan.
    destruct (Z.ltb_spec n 0) as [? | _]; [lia |].
    destruct (Z.to_nat n) as [| todo] eqn:Hto; [lia |]. cbn [Api.fill].
    rewrite (int_add_small max) by lia. rewrite int_add_small by lia.
    destruct (Z.leb_spec (max + - min + 1) 0); [done | lia].
  - intros Hn Hle Hlo Hhi Hspan Hdraw.
    destruct (Z.ltb_spec n 0) as [? | _]; [lia |].
    by apply fill_Some.
Qed.

(** X18: [searchProducts] answers 400 to an empty query; to any other
    query it answers 200 having looked at exactly 100 ids, with at most 20
    products: as many as it found, up to 20.  Each product returned matches
    the query in its name, category or brand, and is stored in the product
    map under an id between 1 and 100000. *)
Theorem search_reply
        (ToLower : string -> string) (Contains : string -> string -> bool)
        (query searchTime : string) (draw : nat -> Z -> Z)
        (syncProducts : gmap Z Seed.Item) :
  (forall j k, 0 < k -> 0 <= draw j k < k) ->
  (query = "" ->
   Api.status (Api.searchProducts ToLower Contains query draw searchTime syncProducts)
   = 400)
  /\ (query <> "" ->
      exists found,
        Api.searchProducts ToLower Contains query draw searchTime syncProducts
        = Api.mkResponse 200 (Api.SearchBody found)
        /\ Api.TotalSearched found = 100
        /\ 0 <= Api.TotalFound found <= 100
        /\ Z.of_nat (length (Api.Products found)) = Z.min (Api.TotalFound found) 20
        /\ Api.SearchTime found = searchTime
        /\ Forall (fun item =>
                     Api.matches ToLower Contains (ToLower query) item = true
                     /\ exists id, 1 <= id <= 100000 /\ syncProducts !! id = Some item)
                  (Api.Products found)).
Proof.
  intros Hdraw. unfold Api.searchProducts. split.
  - intros ->. done.
  - intros Hq. rewrite bool_decide_eq_false_2 by done.
    assert (Hmin : min_int = - 2 ^ 63) by reflexivity.
    assert (Hmax : max_int = 2 ^ 63 - 1) by reflexivity.
    destruct (random_ids_within_bounds draw 100 1 100000) as (_ & _ & Hids).
    destruct Hids as (ids & Heq & Hlen & Hrange); [lia | lia | lia | lia | lia | exact Hdraw |].
    rewrite Heq. clear Heq.
    change (Z.to_nat 100) with 100%nat in Hlen.
    destruct (search_loop_kept ToLower Contains syncProducts (ToLower query) ids []
                (Api.mkHits [] 0 0)) as (Hs & Hf & Hl & Hall).
    { rewrite Hlen. cbn [length]. lia. }
    { unfold Carts.kept. cbn [length Api.totalSearched Api.totalFound Api.matchingProducts].
      split; [lia |]. split; [lia |]. split; [reflexivity | constructor]. }
    cbn [app] in Hs, Hf, Hl, Hall. rewrite Hlen in Hs, Hf.
    eexists. split; [reflexivity |].
    cbn [Api.TotalSearched Api.TotalFound Api.Products Api.SearchTime].
    split; [lia |]. split; [lia |]. split; [exact Hl |]. split; [reflexivity |].
    eapply Forall_impl; [exact Hall |].
    intros item [Hm (id & Hin & Hstored)]. split; [done |].
    exists id. split; [| done].
    rewrite Forall_forall in Hrange. by apply Hrange.
Qed.

Lemma search_reply_witness :
  exists found,
    Api.searchProducts (fun s => s) (fun s q => String.prefix q s) "Wid" (fun _ _ => 0)
                       "0.001s" (<[1 := Carts.listed_widget]> ∅)
    = Api.mkResponse 200 (Api.SearchBody found)
    /\ Api.TotalSearched found = 100
    /\ Z.of_nat (length (Api.Products found)) = Z.min (Api.TotalFound found) 20.
Proof.
  destruct (search_reply (fun s => s) (fun s q => String.prefix q s) "Wid" "0.001s"
              (fun _ _ => 0) (<[1 := Carts.listed_widget]> ∅)) as [_ H].
  - intros j k Hk. lia.
  - destruct H as (found & H1 & H2 & _ & H4 & _); [discriminate |].
    exists found. split; [exact H1 |]. split; [exact H2 | exact H4].
Defined.

(** X19: [postItem] answers 204 exactly when the product is in the map
    and the body binds to an item with the id of the route; it then
    replaces that product, which [getItemByID] returns from then on, and
    touches no other product.  On every other path the map is as it was;
    on no path does the map gain or lose a product id. *)
Theorem post_item_replaces
        (id : Z) (bound : Seed.Item + string) (syncProducts : gmap Z Seed.Item) :
  let r := Api.postItem (Some id) bound syncProducts in
  (Api.status (fst r) = 204
   <-> is_Some (syncProducts !! id)
       /\ exists item, bound = inl item /\ Seed.ID item = id)
  /\ (Api.status (fst r) <> 204 -> snd r = syncProducts)
  /\ dom (snd r) = dom syncProducts
  /\ (forall item, Api.status (fst r) = 204 -> bound = inl item ->
        Api.getItemByID (Some id) (snd r) = Api.mkResponse 200 (Api.ItemBody item)
        /\ forall id', id' <> id -> snd r !! id' = syncProducts !! id')
  /\ (syncProducts !! id = None -> Api.status (fst r) = 404).
Proof.
  unfold Api.postItem. cbv zeta.
  destruct (syncProducts !! id) as [old |] eqn:Hold; simpl.
  - destruct bound as [item | why]; simpl.
    + destruct (Z.eqb_spec (Seed.ID item) id) as [He | Hne]; simpl.
      * split_and!; try done.
        -- split; [| done]. intros _. split; [by eexists | by exists item].
        -- apply dom_insert_lookup_L. by eexists.
        -- intros item' _ [= <-]. unfold Api.getItemByID.
           rewrite lookup_insert_eq. split; [done |].
           intros id' Hid'. by rewrite lookup_insert_ne.
      * split_and!; try done.
        split; [done |]. intros (_ & item' & [= <-] & ?). done.
    + split_and!; try done.
      split; [done |]. by intros (_ & item' & ? & _).
  - split_and!; try done.
    split; [done |]. by intros ([? ?] & _).
Qed.

(** ** Seeding the products table *)

Module SeedFacts.
Import Seed.

Lemma marshalled_snoc e visited product :
  marshalled e (visited ++ [product]) =
  marshalled e visited ++ (if marshal_fails e product then [] else [convert product]).
Proof.
  unfold marshalled. rewrite List.filter_app, fmap_app. simpl.
  by destruct (marshal_fails e product).
Qed.

Lemma marshalled_length e visited : (length (marshalled e visited) <= length visited)%nat.
Proof.
  unfold marshalled. rewrite length_fmap. apply List.filter_length_le.
Qed.

Lemma full_batches_length (batches : list (list Dynamo.ProductItem)) :
  Forall (fun b => length b = 25%nat) batches ->
  length (mjoin batches) = (25 * length batches)%nat.
Proof.
  induction 1 as [| b batches Hb _ IH]; [done |].
  simpl. rewrite length_app, Hb, IH. lia.
Qed.

Local Abbreviation kept := SeedInv.kept.

Lemma kept_batches e seen p :
  kept e seen p -> (25 * length (sent p) + length (writeRequests p) <= length seen)%nat.
Proof.
  intros [Hitems Hfull _ _].
  pose proof (marshalled_length e seen) as Hle.
  rewrite <- Hitems, length_app, full_batches_length in Hle by done. lia.
Qed.

Lemma visit_kept e seen p product :
  Z.of_nat (length seen) < max_int ->
  kept e seen p -> kept e (seen ++ [product]) (visit e p product).
Proof.
  intros Hbound Hkept. pose proof (kept_batches e seen p Hkept) as Hsize.
  destruct Hkept as [Hitems Hfull Hroom Hcount].
  assert (Hmin : min_int = - 2 ^ 63) by reflexivity.
  assert (Hmax : max_int = 2 ^ 63 - 1) by reflexivity.
  unfold visit. destruct (marshal_fails e product) eqn:Hfails.
  - constructor; simpl; try done.
    by rewrite marshalled_snoc, Hfails, app_nil_r.
  - destruct (length (writeRequests p ++ [convert product]) =? 25)%nat eqn:Hfull25.
    + apply Nat.eqb_eq in Hfull25. constructor; simpl.
      * rewrite marshalled_snoc, Hfails, <- Hitems, join_app. simpl.
        by rewrite !app_nil_r, (assoc_L (++)).
      * apply Forall_app. split; [done |]. by constructor.
      * lia.
      * rewrite length_app. simpl. rewrite int_add_small by lia. lia.
    + apply Nat.eqb_neq in Hfull25. rewrite length_app in Hfull25. simpl in Hfull25.
      constructor; simpl; try done.
      * by rewrite marshalled_snoc, Hfails, <- Hitems, (assoc_L (++)).
      * rewrite length_app. simpl. lia.
Qed.

Lemma loop_kept e visited seen p :
  Z.of_nat (length seen + length visited) <= max_int ->
  kept e seen p -> kept e (seen ++ visited) (fold_left (visit e) visited p).
Proof.
  revert seen p. induction visited as [| product visited IH]; intros seen p Hbound Hkept.
  - by rewrite app_nil_r.
  - simpl fold_left. rewrite (cons_middle product seen visited), (assoc_L (++)).
    rewrite length_cons in Hbound. apply IH.
    + rewrite length_app. simpl. lia.
    + apply visit_kept; [lia | done].
Qed.

End SeedFacts.

(** X20: [SeedData] hands every product that marshals to the store
    exactly once, in the order of its visit, in batches of exactly 25 items
    but for a last, smaller one when the number is not a multiple of 25; no
    batch is empty or larger than 25, and the batch count it reports is
    the number of batches it sent, the number of products divided by 25 and
    rounded up. *)
Theorem seed_batches (e : Seed.outside) (visited : list Seed.Item) :
  Z.of_nat (length visited) <= max_int ->
  let r := Seed.SeedData e visited in
  mjoin (Seed.sent r) = Seed.marshalled e visited
  /\ (exists full rest,
        Seed.sent r = full ++ rest
        /\ Forall (fun b => length b = 25%nat) full
        /\ (rest = [] \/ exists b, rest = [b] /\ (0 < length b < 25)%nat))
  /\ Forall (fun b => (1 <= length b <= 25)%nat) (Seed.sent r)
  /\ Seed.batchCount r = Z.of_nat (length (Seed.sent r))
  /\ length (Seed.sent r) = ((length (Seed.marshalled e visited) + 24) / 25)%nat.
Proof.
  intros Hbound r.
  assert (Hmin : min_int = - 2 ^ 63) by reflexivity.
  assert (Hmax : max_int = 2 ^ 63 - 1) by reflexivity.
  pose proof (SeedFacts.loop_kept e visited []
                (Seed.mkProgress [] 0 [] [Seed.Seeding; Seed.Starting])) as Hloop.
  simpl app in Hloop.
  assert (Hkept : SeedInv.kept e visited
            (fold_left (Seed.visit e) visited
               (Seed.mkProgress [] 0 [] [Seed.Seeding; Seed.Starting]))).
  { apply Hloop; [simpl; lia |]. constructor; simpl; try done; try lia. }
  clear Hloop. pose proof (SeedFacts.kept_batches e visited _ Hkept) as Hsize.
  destruct Hkept as [Hitems Hfull Hroom Hcount].
  subst r. unfold Seed.SeedData, Seed.flush. cbv zeta.
  set (p := fold_left (Seed.visit e) visited
              (Seed.mkProgress [] 0 [] [Seed.Seeding; Seed.Starting])) in *.
  pose proof (SeedFacts.full_batches_length (Seed.sent p) Hfull) as Hjoin.
  assert (Hm : length (Seed.marshalled e visited)
               = (25 * length (Seed.sent p) + length (Seed.writeRequests p))%nat).
  { rewrite <- Hitems, length_app, Hjoin. done. }
  destruct (0 <? length (Seed.writeRequests p))%nat eqn:Hleft; simpl.
  - apply Nat.ltb_lt in Hleft. split_and!.
    + rewrite join_app. simpl. by rewrite app_nil_r.
    + exists (Seed.sent p), [Seed.writeRequests p]. split; [done |]. split; [done |].
      right. by eexists.
    + apply Forall_app. split.
      * eapply Forall_impl; [exact Hfull |]. intros b Hb. simpl in Hb. lia.
      * constructor; [lia | constructor].
    + rewrite length_app. simpl. rewrite int_add_small by lia. lia.
    + rewrite length_app, Hm. cbn [length].
      apply (Nat.div_unique _ 25 _ (length (Seed.writeRequests p) - 1)); lia.
  - apply Nat.ltb_ge in Hleft.
    assert (Hnone : Seed.writeRequests p = []) by (apply length_zero_iff_nil; lia).
    rewrite Hnone, app_nil_r in Hitems. split_and!.
    + done.
    + exists (Seed.sent p), []. rewrite app_nil_r. split; [done |]. split; [done |].
      by left.
    + eapply Forall_impl; [exact Hfull |]. intros b Hb. simpl in Hb. lia.
    + done.
    + rewrite Hm, Hnone. cbn [length].
      apply (Nat.div_unique _ 25 _ 24); lia.
Qed.

Lemma seed_batches_witness :
  let r := Seed.SeedData (Seed.mkOutside (fun _ => false) (fun _ => true))
                         (replicate 60 Carts.listed_widget) in
  Seed.batchCount r = Z.of_nat (length (Seed.sent r))
  /\ length (Seed.sent r)
     = ((length (Seed.marshalled (Seed.mkOutside (fun _ => false) (fun _ => true))
                                 (replicate 60 Carts.listed_widget)) + 24) / 25)%nat.
Proof.
  intros r.
  destruct (seed_batches (Seed.mkOutside (fun _ => false) (fun _ => true))
              (replicate 60 Carts.listed_widget)) as (_ & _ & _ & H4 & H5).
  - vm_compute. discriminate.
  - split; [exact H4 | exact H5].
Defined.

(** X21: a failing [BatchWriteItem] is only logged: the batches
    [SeedData] sends and the batch count it reports are the same whether
    the writes fail or succeed, and its last log line reports the
    completion with the number of products of the map and that batch
    count. *)
Theorem seed_ignores_write_failures
        (marshal : Seed.Item -> bool) (fails fails' : nat -> bool)
        (visited : list Seed.Item) :
  let r := Seed.SeedData (Seed.mkOutside marshal fails) visited in
  let r' := Seed.SeedData (Seed.mkOutside marshal fails') visited in
  Seed.sent r = Seed.sent r' /\ Seed.batchCount r = Seed.batchCount r'
  /\ last (Seed.logged r)
     = Some (Seed.Completed (Z.of_nat (length visited)) (Seed.batchCount r)).
Proof.
  cbv zeta.
  assert (Hloop : forall p p',
            Seed.writeRequests p = Seed.writeRequests p' ->
            Seed.batchCount p = Seed.batchCount p' -> Seed.sent p = Seed.sent p' ->
            let q := fold_left (Seed.visit (Seed.mkOutside marshal fails)) visited p in
            let q' := fold_left (Seed.visit (Seed.mkOutside marshal fails')) visited p' in
            Seed.writeRequests q = Seed.writeRequests q'
            /\ Seed.batchCount q = Seed.batchCount q' /\ Seed.sent q = Seed.sent q').
  { induction visited as [| product visited IH]; intros p p' Hw Hc Hs; [done |].
    simpl fold_left. apply IH; unfold Seed.visit; simpl; rewrite Hw, Hc, Hs;
      destruct (marshal product); try done;
      destruct (length (Seed.writeRequests p' ++ [Seed.convert product]) =? 25)%nat;
      done. }
  destruct (Hloop (Seed.mkProgress [] 0 [] [Seed.Seeding; Seed.Starting])
                  (Seed.mkProgress [] 0 [] [Seed.Seeding; Seed.Starting]))
    as (Hw & Hc & Hs); try done.
  unfold Seed.SeedData, Seed.flush. cbv zeta. rewrite Hw, Hc, Hs.
  destruct (0 <? length _)%nat; simpl; by rewrite last_snoc.
Qed.

(** X22: when its read of the store fails, [createShoppingCart] goes on
    as if the customer had no cart: with a marshalling and a write that
    succeed it answers 201 and stores an empty cart, so that the items of
    a cart the customer already had are lost. *)
Theorem failed_read_overwrites_cart
        (s : Service.env) (table : gmap Z Service.CartItem) (id : Z) :
  Service.bound s = Some id -> Service.get_fails s = true ->
  Service.marshal_fails s = false -> Service.put_fails s = false ->
  Service.status (Service.reply (Service.createShoppingCart s table)) = 201
  /\ Service.carts (Service.createShoppingCart s table) !! id
     = Some (Service.mkCartItem id [] (Service.now1 s) (Service.now2 s)).
Proof.
  intros Hb Hg Hm Hp. unfold Service.createShoppingCart.
  rewrite Hb, Hg, Hm, Hp. simpl. by rewrite lookup_insert_eq.
Qed.

Lemma failed_read_overwrites_cart_witness :
  let s := Service.mkEnv (Some 7) true false false "2025-01-05T00:00:00Z"
                         "2025-01-05T00:00:00Z" in
  Service.Items <$> Carts.one_cart !! 7 = Some [Service.mkCartProduct 5 "Acme" "Tools" 2]
  /\ Service.status (Service.reply (Service.createShoppingCart s Carts.one_cart)) = 201
  /\ Service.Items <$> Service.carts (Service.createShoppingCart s Carts.one_cart) !! 7
     = Some [].
Proof.
  intros s. split; [reflexivity |].
  destruct (failed_read_overwrites_cart s Carts.one_cart 7) as (H1 & H2);
    [reflexivity | reflexivity | reflexivity | reflexivity |].
  split; [exact H1 |]. rewrite H2. reflexivity.
Defined.
